(** * Memora web client: form builder, request builder, hooks, notifications

    A shallow embedding of the TypeScript sources of the web client
    (FormBuilder.tsx, Field.tsx, Button.tsx, ManageService.ts, the two
    deck services, useServiceQuery.ts, useService.ts, NotificationProvider
    and Notification.tsx) together with the properties of the
    specification that concern them.

    Conventions.  A JavaScript string is a [string]: the bytes of its UTF-8
    encoding, so that a character up to U+007F is one byte.  A computation
    that may throw returns an [Outcome].  Objects used as dictionaries are
    [gmap]s, objects whose key order or shape matters are association
    lists. *)

From Stdlib Require Import ZArith QArith String Ascii List Lia Bool.
From Stdlib Require Import DecimalString DecimalPos.
From Stdlib Require Qcanon.
From stdpp Require Import gmap strings list.
Import ListNotations.

Local Open Scope Z_scope.
Local Set Warnings "-register-all".

(** ** JavaScript preliminaries *)

Module Js.

(** An [Error] instance: its [name] ("Error", "TypeError", ...) and
    its [message]. *)
Record JsError := mkError { error_name : string; error_message : string }.

(** [new Error(message)] *)
Definition new_Error (message : string) : JsError := mkError "Error" message.
Definition new_TypeError (message : string) : JsError :=
  mkError "TypeError" message.

(** The values the modelled code passes around as [unknown]: plain data.
    [JNum n] is the Number whose value is the integer [n]. *)
Inductive JsVal :=
| JUndefined
| JNull
| JBool (b : bool)
| JNum (n : Z)
| JStr (s : string)
| JArr (items : list JsVal)
| JObj (props : list (string * JsVal)).

(** What a [throw] carries: an [Error] instance or any other value. *)
Inductive Thrown :=
| ThrownError (e : JsError)
| ThrownValue (v : JsVal).

Inductive Outcome (A : Type) :=
| Returned (a : A)
| Threw (t : Thrown).
Arguments Returned {A} a.
Arguments Threw {A} t.

Definition bind {A B} (m : Outcome A) (k : A -> Outcome B) : Outcome B :=
  match m with
  | Returned a => k a
  | Threw t => Threw t
  end.

(** [try { body } catch (error) { handler }] *)
Definition try_catch {A} (body : Outcome A) (handler : Thrown -> Outcome A)
  : Outcome A :=
  match body with
  | Returned a => Returned a
  | Threw t => handler t
  end.

(** ToBoolean *)
Definition truthy (v : JsVal) : bool :=
  match v with
  | JUndefined | JNull => false
  | JBool b => b
  | JNum n => negb (n =? 0)
  | JStr s => negb (String.eqb s "")
  | JArr _ | JObj _ => true
  end.

(** Decimal rendering of integers, as [String(n)] and template literals
    print them. *)
Definition string_of_nat (n : nat) : string :=
  NilZero.string_of_uint (Nat.to_uint n).
Definition string_of_Z (n : Z) : string :=
  NilZero.string_of_int (Z.to_int n).

(** [a || b] on strings: the first operand unless it is empty. *)
Definition or_string (a b : string) : string :=
  if String.eqb a "" then b else a.

(** [haystack.includes(needle)] as a relation. *)
Definition includes (haystack needle : string) : Prop :=
  exists pre post, haystack = pre +:+ needle +:+ post.

(** Own property lookup on a plain object ([o?.k]): [undefined] when the
    receiver has no such property.  Only names that no built-in
    prototype defines are read through it. *)
Fixpoint assoc (k : string) (props : list (string * JsVal)) : option JsVal :=
  match props with
  | [] => None
  | (k', v) :: rest => if String.eqb k k' then Some v else assoc k rest
  end.

Definition get (k : string) (v : JsVal) : JsVal :=
  match v with
  | JObj props => default JUndefined (assoc k props)
  | _ => JUndefined
  end.

(** [k in v]: a TypeError unless [v] is an object; arrays have their
    indices and [length]. *)
Definition js_in (k : string) (v : JsVal) : Outcome bool :=
  match v with
  | JObj props => Returned (bool_decide (is_Some (assoc k props)))
  | JArr items =>
      Returned (String.eqb k "length"
                || existsb (fun i => String.eqb k (string_of_nat i))
                     (seq 0 (length items)))
  | _ => Threw (ThrownError (new_TypeError
           ("Cannot use 'in' operator to search for '" +:+ k +:+ "'")))
  end.

(** [a ?? b] *)
Definition nullish (a b : JsVal) : JsVal :=
  match a with
  | JUndefined | JNull => b
  | _ => a
  end.

End Js.
Export Js.

Notation "x <- m ;; k" := (Js.bind m (fun x => k))
(at level 100, m at next level, right associativity, only parsing).

(** ** Numeric parsing: [Number(string)] and [isNaN] *)

Module JsNumber.

(** A Number as [Number(value)] yields it: not-a-number, an infinity,
    negative zero, or the double whose value is the rational [q], kept in
    lowest terms.  [Finite 0] is positive zero. *)
Inductive JsNumber :=
| NaN
| Infinity (negative : bool)
| NegZero
| Finite (q : Q).

Definition is_digit (c : ascii) : bool :=
  let n := nat_of_ascii c in (48 <=? n)%nat && (n <=? 57)%nat.

Definition digit_value (c : ascii) : Z := Z.of_nat (nat_of_ascii c - 48).

(** Value of a hexadecimal digit, if it is one. *)
Definition hex_value (c : ascii) : option Z :=
  let n := nat_of_ascii c in
  if (48 <=? n)%nat && (n <=? 57)%nat then Some (Z.of_nat (n - 48))
  else if (65 <=? n)%nat && (n <=? 70)%nat then Some (Z.of_nat (n - 55))
  else if (97 <=? n)%nat && (n <=? 102)%nat then Some (Z.of_nat (n - 87))
  else None.

(** The StrWhiteSpaceChar of one byte: tab, line feed, vertical tab, form
    feed, carriage return, space. *)
Definition is_whitespace (c : ascii) : bool :=
  let n := nat_of_ascii c in
  (9 <=? n)%nat && (n <=? 13)%nat || (n =? 32)%nat.

(** A byte that is a whole character: U+0000 to U+007F. *)
Definition is_ascii (c : ascii) : bool := (nat_of_ascii c <? 128)%nat.

(** The StrWhiteSpaceChar of two bytes: U+00A0. *)
Definition is_whitespace2 (c1 c2 : ascii) : bool :=
  (nat_of_ascii c1 =? 194)%nat && (nat_of_ascii c2 =? 160)%nat.

(** The StrWhiteSpaceChar of three bytes: U+1680, U+2000 to U+200A,
    U+2028, U+2029, U+202F, U+205F, U+3000 and U+FEFF. *)
Definition is_whitespace3 (c1 c2 c3 : ascii) : bool :=
  let a := nat_of_ascii c1 in
  let b := nat_of_ascii c2 in
  let c := nat_of_ascii c3 in
  ((a =? 225) && (b =? 154) && (c =? 128))%nat
  || ((a =? 226) && (b =? 128)
      && ((128 <=? c) && (c <=? 138) || (c =? 168) || (c =? 169)
          || (c =? 175)))%nat
  || ((a =? 226) && (b =? 129) && (c =? 159))%nat
  || ((a =? 227) && (b =? 128) && (c =? 128))%nat
  || ((a =? 239) && (b =? 187) && (c =? 191))%nat.

(** The input without its leading white space. *)
Fixpoint drop_whitespace (l : list ascii) : list ascii :=
  match l with
  | [] => []
  | c1 :: r1 =>
      if is_whitespace c1 then drop_whitespace r1
      else if is_ascii c1 then l
      else
        match r1 with
        | [] => l
        | c2 :: r2 =>
            if is_whitespace2 c1 c2 then drop_whitespace r2
            else
              match r2 with
              | [] => l
              | c3 :: r3 =>
                  if is_whitespace3 c1 c2 c3 then drop_whitespace r3 else l
              end
        end
  end.

(** The input is white space from its first byte to its last. *)
Fixpoint all_whitespace (l : list ascii) : bool :=
  match l with
  | [] => true
  | c1 :: r1 =>
      if is_whitespace c1 then all_whitespace r1
      else if is_ascii c1 then false
      else
        match r1 with
        | [] => false
        | c2 :: r2 =>
            if is_whitespace2 c1 c2 then all_whitespace r2
            else
              match r2 with
              | [] => false
              | c3 :: r3 =>
                  if is_whitespace3 c1 c2 c3 then all_whitespace r3 else false
              end
        end
  end.

(** The input without its trailing white space. *)
Fixpoint drop_trailing_whitespace (l : list ascii) : list ascii :=
  match l with
  | [] => []
  | c :: rest =>
      if all_whitespace l then [] else c :: drop_trailing_whitespace rest
  end.

Definition trim (l : list ascii) : list ascii :=
  drop_trailing_whitespace (drop_whitespace l).

(** The longest prefix of digits and what follows it. *)
Fixpoint span_digits (l : list ascii) : list ascii * list ascii :=
  match l with
  | c :: rest =>
      if is_digit c
      then let '(ds, tl) := span_digits rest in (c :: ds, tl)
      else ([], l)
  | [] => ([], [])
  end.

Definition digits_value (ds : list ascii) : Z :=
  fold_left (fun acc c => 10 * acc + digit_value c) ds 0.

(** Digits in base [radix], at least one, up to the end of the input. *)
Definition radix_value (radix : Z) (ds : list ascii) : option Z :=
  match ds with
  | [] => None
  | _ =>
      fold_left
        (fun acc c =>
           match acc, hex_value c with
           | Some a, Some d => if d <? radix then Some (radix * a + d) else None
           | _, _ => None
           end)
        ds (Some 0)
  end.

(** ExponentPart, optional, up to the end of the input. *)
Definition exponent_part (l : list ascii) : option Z :=
  match l with
  | [] => Some 0
  | c :: rest =>
      if Ascii.eqb c "e" || Ascii.eqb c "E" then
        let '(neg, ds) :=
          match rest with
          | s :: ds' =>
              if Ascii.eqb s "-" then (true, ds')
              else if Ascii.eqb s "+" then (false, ds')
              else (false, rest)
          | [] => (false, [])
          end in
        match span_digits ds with
        | ([], _) => None
        | (es, []) => Some (if neg then - digits_value es else digits_value es)
        | (_, _ :: _) => None
        end
      else None
  end.

(** [m * 10^e] as a reduced fraction. *)
Definition scale10 (m e : Z) : Q :=
  if 0 <=? e then Qred (inject_Z (m * 10 ^ e))
  else Qred (Qmake m (Z.to_pos (10 ^ (- e)))).

(** StrUnsignedDecimalLiteral other than [Infinity]: its mathematical
    value. *)
Definition unsigned_decimal (l : list ascii) : option Q :=
  let '(ip, r1) := span_digits l in
  let '(fp, r2) :=
    match r1 with
    | c :: r => if Ascii.eqb c "." then span_digits r else ([], r1)
    | [] => ([], [])
    end in
  match ip, fp with
  | [], [] => None
  | _, _ =>
      match exponent_part r2 with
      | Some e =>
          Some (scale10 (digits_value (ip ++ fp)) (e - Z.of_nat (length fp)))
      | None => None
      end
  end.

(** *** Rounding to a double (IEEE 754 binary64, ties to even) *)

(** [floor (log2 (n / d))] for positive [n] and [d]. *)
Definition floor_log2 (n d : Z) : Z :=
  let k := Z.log2 n - Z.log2 d in
  if (if 0 <=? k then 2 ^ k * d <=? n else d <=? n * 2 ^ (- k))
  then k else k - 1.

(** The integer nearest to [num / den], the even one of two that are as
    near; [0 <= num], [0 < den]. *)
Definition round_half_even (num den : Z) : Z :=
  let q := num / den in
  let r := num mod den in
  if 2 * r <? den then q
  else if den <? 2 * r then q + 1
  else if Z.even q then q else q + 1.

Definition zero (negative : bool) : JsNumber :=
  if negative then NegZero else Finite 0.

(** The double nearest to [n / d] (or to its opposite), for [0 <= n] and
    [0 < d]: 53 significant bits, a least exponent of -1074, an infinity
    from [2^1024] on.  A literal of more than 20 significant digits, which
    ECMA-262 lets an engine cut to 20 before rounding, is rounded from
    its full value, as the engines do. *)
Definition to_double (negative : bool) (n d : Z) : JsNumber :=
  if n =? 0 then zero negative
  else
    let e := Z.max (floor_log2 n d - 52) (- 1074) in
    let m :=
      if 0 <=? e then round_half_even n (d * 2 ^ e)
      else round_half_even (n * 2 ^ (- e)) d in
    if m =? 0 then zero negative
    else if (1024 <? e) || (2 ^ (1024 - e) <=? m) then Infinity negative
    else
      let s := if negative then - m else m in
      Finite (Qred (if 0 <=? e then inject_Z (s * 2 ^ e)
                    else Qmake s (Z.to_pos (2 ^ (- e))))).

(** The Number value of a mathematical value that is not negative. *)
Definition round_to_double (negative : bool) (q : Q) : JsNumber :=
  to_double negative (Qnum q) (Zpos (Qden q)).


Definition Infinity_literal : list ascii :=
  list_ascii_of_string "Infinity".

Definition unsigned_literal (negative : bool) (l : list ascii) : JsNumber :=
  if bool_decide (l = Infinity_literal) then Infinity negative
  else match unsigned_decimal l with
       | Some q => round_to_double negative q
       | None => NaN
       end.

(** StringToNumber: surrounding white space is ignored, the empty literal
    is zero, [0x], [0o] and [0b] integers carry no sign. *)
Definition StringToNumber (s : string) : JsNumber :=
  match trim (list_ascii_of_string s) with
  | [] => Finite 0
  | c :: rest =>
      let prefixed (radix : Z) (ds : list ascii) :=
        match radix_value radix ds with
        | Some n => round_to_double false (inject_Z n)
        | None => NaN
        end in
      if Ascii.eqb c "-" then unsigned_literal true rest
      else if Ascii.eqb c "+" then unsigned_literal false rest
      else
        match Ascii.eqb c "0", rest with
        | true, p :: ds =>
            if Ascii.eqb p "x" || Ascii.eqb p "X" then prefixed 16 ds
            else if Ascii.eqb p "o" || Ascii.eqb p "O" then prefixed 8 ds
            else if Ascii.eqb p "b" || Ascii.eqb p "B" then prefixed 2 ds
            else unsigned_literal false (c :: rest)
        | _, _ => unsigned_literal false (c :: rest)
        end
  end.

(** *** Vocabulary of the properties *)













End JsNumber.
Export JsNumber.

(** ** Field renderer and form builder (Field.tsx, Button.tsx,
       FormBuilder.tsx) *)

Module FormBuilder.

(** FieldConfig: the common attributes of BaseFieldConfig and the tag
    [type].  The tag is the string found at run time, so that tags outside
    the eight of the union can be told apart from them.  An optional flag
    that is left out reads as [false]. *)
Record FieldConfig := mkField {
  type : string;
  name : string;
  label : string;
  required : bool;
  disabled : bool;
}.

(** The eight field components. *)
Inductive FieldComponent :=
| TextField | EmailField | PasswordField | NumberField
| TextareaField | SelectField | CheckboxField | RadioField.

(** A rendered element [<Component config={config} disabled={disabled} />]. *)
Record Element := mkElement {
  component : FieldComponent;
  props_config : FieldConfig;
  props_disabled : bool;
}.

(** [Field]: the [switch (config.type)]; [None] is [return null]. *)
Definition Field (config : FieldConfig) (disabled : bool) : option Element :=
  let t := config.(type) in
  if String.eqb t "text" then Some (mkElement TextField config disabled)
  else if String.eqb t "email" then Some (mkElement EmailField config disabled)
  else if String.eqb t "password" then
    Some (mkElement PasswordField config disabled)
  else if String.eqb t "number" then Some (mkElement NumberField config disabled)
  else if String.eqb t "textarea" then
    Some (mkElement TextareaField config disabled)
  else if String.eqb t "select" then Some (mkElement SelectField config disabled)
  else if String.eqb t "checkbox" then
    Some (mkElement CheckboxField config disabled)
  else if String.eqb t "radio" then Some (mkElement RadioField config disabled)
  else None.

(** The tags of the FieldType union. *)
Definition FieldType : list string :=
  ["text"; "email"; "password"; "number"; "textarea"; "select"; "checkbox";
   "radio"]%string.

(** Every field component gives its control
    [disabled={disabled || config.disabled}]. *)
Definition control_disabled (e : Element) : bool :=
  e.(props_disabled) || e.(props_config).(disabled).

(** [Button]: [isDisabled = disabled || isLoading]. *)
Definition Button_isDisabled (disabled isLoading : bool) : bool :=
  disabled || isLoading.

(** An entry of a FormData: a string or a File (its name is kept). *)
Inductive FormDataEntryValue :=
| EntryString (s : string)
| EntryFile (filename : string).

(** A FormData: the submitted entries, in order; a name may repeat. *)
Definition FormData := list (string * FormDataEntryValue).

(** [formData.get(name)]: the first entry of that name, [None] for [null]. *)
Fixpoint FormData_get (formData : FormData) (n : string)
  : option FormDataEntryValue :=
  match formData with
  | [] => None
  | (k, v) :: rest => if String.eqb k n then Some v else FormData_get rest n
  end.

(** ToBoolean of [FormDataEntryValue | null]. *)
Definition entry_truthy (value : option FormDataEntryValue) : bool :=
  match value with
  | None => false
  | Some (EntryString s) => negb (String.eqb s "")
  | Some (EntryFile _) => true
  end.

(** [typeof value === 'string'] *)
Definition is_string (value : option FormDataEntryValue) : bool :=
  match value with
  | Some (EntryString _) => true
  | _ => false
  end.

(** The string a string entry holds. *)
Definition string_of (value : option FormDataEntryValue) : string :=
  match value with
  | Some (EntryString s) => s
  | _ => ""
  end.

(** [Number(value)] for a truthy entry: a File prints as "[object File]",
    which is no numeric literal. *)
Definition Number (value : FormDataEntryValue) : JsNumber :=
  match value with
  | EntryString s => StringToNumber s
  | EntryFile _ => NaN
  end.

(** [isNaN(numValue)], where [None] is [undefined]. *)
Definition isNaN (numValue : option JsNumber) : bool :=
  match numValue with
  | None => true
  | Some NaN => true
  | Some _ => false
  end.

(** The number a raw input denotes, when it is numeric: a non-empty string
    that is a numeric literal. *)
Definition numeric_value (value : option FormDataEntryValue)
  : option JsNumber :=
  match value with
  | Some (EntryString s) =>
      if String.eqb s "" then None
      else match StringToNumber s with
           | NaN => None
           | n => Some n
           end
  | _ => None
  end.

(** A collected form value. *)
Inductive FormValue :=
| VUndefined
| VBoolean (b : bool)
| VNumber (n : JsNumber)
| VString (s : string).

(** [value === 'on' || value === 'true'] *)
Definition coerce_checkbox (value : option FormDataEntryValue) : FormValue :=
  match value with
  | Some (EntryString s) => VBoolean (String.eqb s "on" || String.eqb s "true")
  | _ => VBoolean false
  end.

(** The number branch:
    [numValue = value ? Number(value) : undefined;
     !isNaN(numValue) ? numValue : undefined] *)
Definition coerce_number (value : option FormDataEntryValue) : FormValue :=
  let numValue :=
    match value with
    | Some v => if entry_truthy value then Some (Number v) else None
    | None => None
    end in
  if negb (isNaN numValue)
  then match numValue with Some n => VNumber n | None => VUndefined end
  else VUndefined.

(** [field.label || field.name] *)
Definition display_name (field : FieldConfig) : string :=
  or_string field.(label) field.(name).

(** [values[key] = v] on the plain object [values = {}], whose own
    properties the map holds.  The key [__proto__] reaches the setter that
    Object.prototype inherits to it, which ignores a value that is neither
    an object nor null: no own property is made. *)
Definition assign (key : string) (v : FormValue)
  (values : gmap string FormValue) : gmap string FormValue :=
  if String.eqb key "__proto__" then values else <[key := v]> values.

(** The loop of [handleSubmit] over [fields], filling [values]; it throws at
    the first text-like field that is required and has no non-empty string. *)
Fixpoint collect (fields : list FieldConfig) (formData : FormData)
  (values : gmap string FormValue) : Outcome (gmap string FormValue) :=
  match fields with
  | [] => Returned values
  | field :: rest =>
      let value := FormData_get formData field.(name) in
      if String.eqb field.(type) "checkbox" then
        collect rest formData (assign field.(name) (coerce_checkbox value) values)
      else if String.eqb field.(type) "number" then
        collect rest formData (assign field.(name) (coerce_number value) values)
      else if entry_truthy value && is_string value then
        collect rest formData
          (assign field.(name) (VString (string_of value)) values)
      else if field.(required) then
        Threw (ThrownError (new_Error (display_name field +:+ " is required")))
      else collect rest formData (assign field.(name) VUndefined values)
  end.

(** What one call of [handleSubmit] does: it throws out of the loop, or it
    reaches [startTransition], whose action calls [onSubmit(values)]. *)
Inductive SubmitResult :=
| ValidationThrew (t : Thrown)
| TransitionStarted (values : gmap string FormValue).

Definition handleSubmit (fields : list FieldConfig) (formData : FormData)
  : SubmitResult :=
  match collect fields formData ∅ with
  | Returned values => TransitionStarted values
  | Threw t => ValidationThrew t
  end.

(** The calls of the submit handler [onSubmit] a submission makes. *)
Definition handler_calls (r : SubmitResult) : list (gmap string FormValue) :=
  match r with
  | TransitionStarted values => [values]
  | ValidationThrew _ => []
  end.

(** *** The form as a transition system

    [isPending] is the flag of [useTransition]: React holds it from
    [startTransition] until the async action has settled.  [in_flight]
    lists the calls of [onSubmit] whose promise is still pending, and
    [started] counts all calls made so far. *)
Record FormState := mkForm {
  isPending : bool;
  in_flight : list (gmap string FormValue);
  started : nat;
}.

Definition initial : FormState := mkForm false [] 0.

(** The rendered submit control: [<Button type="submit" isLoading={isPending}>]. *)
Definition submit_disabled (st : FormState) : bool :=
  Button_isDisabled false st.(isPending).

(** The rendered fields: [<Field config={field} disabled={isPending} />]. *)
Definition render_fields (fields : list FieldConfig) (st : FormState)
  : list (option Element) :=
  map (fun field => Field field st.(isPending)) fields.

(** A submit event reaching [onSubmit={handleSubmit}]: the handler does not
    read [isPending]. *)
Definition on_submit (fields : list FieldConfig) (formData : FormData)
  (st : FormState) : FormState :=
  match handleSubmit fields formData with
  | TransitionStarted values =>
      mkForm true (st.(in_flight) ++ [values]) (S st.(started))
  | ValidationThrew _ => st
  end.

(** The oldest pending call of [onSubmit] settles; the flag falls once no
    action is pending. *)
Definition on_settled (st : FormState) : FormState :=
  match st.(in_flight) with
  | [] => st
  | _ :: rest => mkForm (negb (bool_decide (rest = []))) rest st.(started)
  end.

Inductive Event :=
| ClickSubmit (formData : FormData)
| DispatchSubmit (formData : FormData)
| HandlerSettled.

(** A click on the submit control fires a submit event unless the control
    is disabled; a submit event dispatched to the form by a script
    ([form.requestSubmit()], a test harness) reaches the handler whatever
    the controls show.  The constraint validation of the browser, which
    may withhold the event of a click, is not modelled: a click it blocks
    is a click that is not in the run. *)
Definition step (fields : list FieldConfig) (st : FormState) (ev : Event)
  : FormState :=
  match ev with
  | ClickSubmit formData =>
      if submit_disabled st then st else on_submit fields formData st
  | DispatchSubmit formData => on_submit fields formData st
  | HandlerSettled => on_settled st
  end.

Definition run (fields : list FieldConfig) (evs : list Event) : FormState :=
  fold_left (step fields) evs initial.

(** Events that come from the rendered controls only. *)
Definition from_controls (ev : Event) : bool :=
  match ev with
  | DispatchSubmit _ => false
  | _ => true
  end.

(** A field whose required check the loop performs: any type but checkbox
    and number. *)
Definition text_like (field : FieldConfig) : Prop :=
  field.(type) ≠ "checkbox"%string /\ field.(type) ≠ "number"%string.

(** The submitted value of [field] is absent, empty, or not a string. *)
Definition missing (formData : FormData) (field : FieldConfig) : Prop :=
  entry_truthy (FormData_get formData field.(name))
  && is_string (FormData_get formData field.(name)) = false.



(** At most one call of [onSubmit] is pending, and the flag says whether
    one is. *)
Definition single_flight (st : FormState) : Prop :=
  (st.(isPending) = false /\ st.(in_flight) = [])
  \/ (st.(isPending) = true /\ exists values, st.(in_flight) = [values]).

(** *** Sample configurations *)

Definition age_field : FieldConfig := mkField "number" "age" "Age" true false.
Definition terms_field : FieldConfig :=
  mkField "checkbox" "terms" "Accept terms" true false.
Definition title_field : FieldConfig :=
  mkField "text" "title" "Title" true false.
Definition hidden_field : FieldConfig :=
  mkField "hidden" "token" "" false false.

(** U+00A0, the no-break space. *)
Definition no_break_space : string :=
  String (ascii_of_nat 194) (String (ascii_of_nat 160) EmptyString).

(** createDeckFormFields (features/decks/constants/formFields.ts) *)
Definition createDeckFormFields : list FieldConfig :=
  [mkField "text" "name" "Deck Name" true false;
   mkField "text" "description" "Description" false false].

End FormBuilder.

(** ** Serialisers of the platform: [JSON.stringify] and URLSearchParams *)

Module Serialise.

Definition hex_digit (upper : bool) (n : nat) : ascii :=
  if (n <? 10)%nat then ascii_of_nat (48 + n)
  else ascii_of_nat ((if upper then 55 else 87) + n).

Definition backslash : ascii := ascii_of_nat 92.
Definition dquote : ascii := ascii_of_nat 34.

(** A two-character escape: a backslash and [c]. *)
Definition escape (c : ascii) : string :=
  String backslash (String c EmptyString).

(** QuoteJSONString, one code unit. *)
Definition quote_char (c : ascii) : string :=
  let n := nat_of_ascii c in
  if (n =? 8)%nat then escape "b"
  else if (n =? 9)%nat then escape "t"
  else if (n =? 10)%nat then escape "n"
  else if (n =? 12)%nat then escape "f"
  else if (n =? 13)%nat then escape "r"
  else if (n =? 34)%nat then escape dquote
  else if (n =? 92)%nat then escape backslash
  else if (n <? 32)%nat then
    escape "u" +:+ "00" +:+ String (hex_digit false (n / 16))
                              (String (hex_digit false (n mod 16)) EmptyString)
  else String c EmptyString.

Fixpoint quote_body (s : string) : string :=
  match s with
  | EmptyString => EmptyString
  | String c rest => quote_char c +:+ quote_body rest
  end.

Definition QuoteJSONString (s : string) : string :=
  String dquote (quote_body s) +:+ String dquote EmptyString.

(** [JSON.stringify(value)]; [None] is the [undefined] it returns for
    [undefined].  A property whose value is [undefined] is left out, an
    [undefined] array item prints as [null]. *)
Fixpoint JSON_stringify (v : JsVal) : option string :=
  match v with
  | JUndefined => None
  | JNull => Some "null"
  | JBool b => Some (if b then "true" else "false")
  | JNum n => Some (string_of_Z n)
  | JStr s => Some (QuoteJSONString s)
  | JArr items =>
      Some ("[" +:+ String.concat ","
                      (map (fun x => default "null" (JSON_stringify x)) items)
                +:+ "]")
  | JObj props =>
      Some ("{" +:+ String.concat ","
                      (omap (fun kv =>
                               match JSON_stringify (snd kv) with
                               | Some s =>
                                   Some (QuoteJSONString (fst kv) +:+ ":" +:+ s)
                               | None => None
                               end) props)
                +:+ "}")
  end.

(** The application/x-www-form-urlencoded byte serialiser. *)
Definition urlencode_char (c : ascii) : string :=
  let n := nat_of_ascii c in
  if (48 <=? n)%nat && (n <=? 57)%nat
     || (65 <=? n)%nat && (n <=? 90)%nat
     || (97 <=? n)%nat && (n <=? 122)%nat
     || (n =? 42)%nat || (n =? 45)%nat || (n =? 46)%nat || (n =? 95)%nat
  then String c EmptyString
  else if (n =? 32)%nat then "+"
  else String "%" (String (hex_digit true (n / 16))
                     (String (hex_digit true (n mod 16)) EmptyString)).

Fixpoint urlencode (s : string) : string :=
  match s with
  | EmptyString => EmptyString
  | String c rest => urlencode_char c +:+ urlencode rest
  end.

(** A query parameter value: [string | number | boolean]. *)
Inductive QueryValue :=
| QString (s : string)
| QNumber (n : Z)
| QBoolean (b : bool).

(** [String(value)] *)
Definition String_of (value : QueryValue) : string :=
  match value with
  | QString s => s
  | QNumber n => string_of_Z n
  | QBoolean b => if b then "true" else "false"
  end.

(** [params.append(key, String(value))] for each entry, then
    [params.toString()]. *)
Definition URLSearchParams_toString (entries : list (string * QueryValue))
  : string :=
  String.concat "&"
    (map (fun kv => urlencode (fst kv) +:+ "=" +:+ urlencode (String_of (snd kv)))
       entries).

End Serialise.
Export Serialise.

(** ** The network as the code sees it: [fetch] and [Response] *)

Module Http.

(** HTTP_METHODS (apiConstants.ts) *)
Inductive HttpMethod := GET | POST | PUT | PATCH | DELETE.

Definition method_name (m : HttpMethod) : string :=
  match m with
  | GET => "GET"
  | POST => "POST"
  | PUT => "PUT"
  | PATCH => "PATCH"
  | DELETE => "DELETE"
  end.

#[export] Instance HttpMethod_eq_dec : EqDecision HttpMethod.
Proof. solve_decision. Defined.

(** CONTENT_TYPES.JSON *)
Definition CONTENT_TYPES_JSON : string := "application/json".

(** The second argument of [fetch]; [None] is a member left out. *)
Record RequestInit := mkInit {
  init_method : option string;
  init_headers : option (gmap string string);
  init_body : option string;
  init_cache : option string;
}.

(** One call [fetch(url, init)]. *)
Record FetchCall := mkCall { call_url : string; call_init : RequestInit }.

(** A Response: its status line, what [text()] resolves to and what
    [json()] resolves to or rejects with. *)
Record Response := mkResponse {
  status : nat;
  statusText : string;
  text : string;
  json : Outcome JsVal;
}.

(** [response.ok]: the status is in the range 200 to 299. *)
Definition ok (r : Response) : bool :=
  (200 <=? r.(status))%nat && (r.(status) <=? 299)%nat.

(** What the promise of [fetch] does. *)
Inductive FetchOutcome :=
| Resolves (r : Response)
| Rejects (t : Thrown).

Definition Fetch := string -> RequestInit -> FetchOutcome.

(** What an async function did: the [fetch] calls it issued, in order, and
    how its promise settled. *)
Definition Async (A : Type) : Type := list FetchCall * Outcome A.

(** *** Sample responses *)

(** A 404 whose body is the text "Not found"; [json()] of such a body
    rejects. *)
Definition not_found : Response :=
  mkResponse 404 "Not Found" "Not found"
    (Threw (ThrownError (mkError "SyntaxError" "Unexpected token N in JSON"))).

Definition fetch_not_found : Fetch := fun _ _ => Resolves not_found.

(** A 200 whose body is the deck [d1]. *)
Definition deck_d1 : JsVal :=
  JObj [("id", JStr "d1"); ("name", JStr "Test"); ("count", JNum 0)]%string.

Definition fetch_deck_d1 : Fetch :=
  fun _ _ => Resolves (mkResponse 200 "OK" "" (Returned deck_d1)).

End Http.
Export Http.

(** ** Request builder (ManageService.ts) *)

Module RequestBuilder.

Record RequestConfig := mkConfig {
  endpoint : string;
  method : HttpMethod;
  queryParams : option (list (string * QueryValue));
  body : JsVal;
  headers : gmap string string;
}.

Record RequestBuilder := mkBuilder {
  config : RequestConfig;
  baseUrl : string;
}.

(** [new RequestBuilder(endpoint, method, baseUrl)] *)
Definition new_RequestBuilder (endpoint : string) (method : HttpMethod)
  (baseUrl : string) : RequestBuilder :=
  mkBuilder
    (mkConfig endpoint method None JUndefined
       {[ "Content-Type" := CONTENT_TYPES_JSON ]})
    baseUrl.

Definition setQueryParams (params : list (string * QueryValue))
  (rb : RequestBuilder) : RequestBuilder :=
  let c := rb.(config) in
  mkBuilder
    (mkConfig c.(endpoint) c.(method) (Some params) c.(body) c.(headers))
    rb.(baseUrl).

Definition setBody (b : JsVal) (rb : RequestBuilder) : RequestBuilder :=
  let c := rb.(config) in
  mkBuilder
    (mkConfig c.(endpoint) c.(method) c.(queryParams) b c.(headers))
    rb.(baseUrl).

(** [{ ...this.config.headers, ...headers }]: the new entries win. *)
Definition setHeaders (hs : gmap string string) (rb : RequestBuilder)
  : RequestBuilder :=
  let c := rb.(config) in
  mkBuilder
    (mkConfig c.(endpoint) c.(method) c.(queryParams) c.(body)
       (hs ∪ c.(headers)))
    rb.(baseUrl).

(** The URL [execRequest] builds. *)
Definition request_url (rb : RequestBuilder) : string :=
  let url := rb.(baseUrl) +:+ rb.(config).(endpoint) in
  match rb.(config).(queryParams) with
  | Some params => url +:+ "?" +:+ URLSearchParams_toString params
  | None => url
  end.

(** The options [execRequest] builds: the body is added when it is truthy
    and the method is not GET. *)
Definition request_options (rb : RequestBuilder) : RequestInit :=
  let c := rb.(config) in
  mkInit (Some (method_name c.(method))) (Some c.(headers))
    (if truthy c.(body) && negb (bool_decide (c.(method) = GET))
     then JSON_stringify c.(body) else None)
    None.

(** The [try] block after the call of [fetch]. *)
Definition handle_response (r : FetchOutcome) : Outcome JsVal :=
  match r with
  | Rejects t => Threw t
  | Resolves response =>
      if negb (ok response) then
        Threw (ThrownError
                 (new_Error ("HTTP " +:+ string_of_nat response.(status)
                             +:+ ": "
                             +:+ or_string response.(text)
                                   response.(statusText))))
      else if (response.(status) =? 204)%nat then Returned JUndefined
      else response.(json)
  end.

(** The [catch] block: an Error is thrown again, anything else becomes a
    generic Error. *)
Definition rethrow (t : Thrown) : Outcome JsVal :=
  match t with
  | ThrownError e => Threw (ThrownError e)
  | ThrownValue _ =>
      Threw (ThrownError (new_Error "An unexpected error occurred"))
  end.

Definition execRequest (fetch : Fetch) (rb : RequestBuilder) : Async JsVal :=
  let url := request_url rb in
  let options := request_options rb in
  ([mkCall url options],
   try_catch (handle_response (fetch url options)) rethrow).

(** [ManageService(baseUrl).prepareRequest(endpoint, method)] *)
Definition prepareRequest (baseUrl : string) (endpoint : string)
  (method : HttpMethod) : RequestBuilder :=
  new_RequestBuilder endpoint method baseUrl.

End RequestBuilder.
Export RequestBuilder.

(** ** Deck services *)

(** The parameter objects of the deck operations. *)
Module Decks.

Record CreateDeckDto := mkCreate {
  dto_name : string;
  dto_description : option string;
}.

Record UpdateParams := mkUpdate {
  upd_id : string;
  upd_name : option string;
  upd_description : option string;
}.

(** An optional string property. *)
Definition optional (s : option string) : JsVal :=
  match s with
  | Some x => JStr x
  | None => JUndefined
  end.

(** The object a CreateDeckDto is. *)
Definition CreateDeckDto_object (p : CreateDeckDto) : JsVal :=
  JObj [("name", JStr p.(dto_name));
        ("description", optional p.(dto_description))]%string.

(** [const { id, ...data } = params]: the object [data]. *)
Definition update_data (p : UpdateParams) : JsVal :=
  JObj [("name", optional p.(upd_name));
        ("description", optional p.(upd_description))]%string.

(** DECK_ENDPOINTS (constants/endpoints.ts) *)
Definition DECK_ENDPOINTS_BASE : string := "/v1/decks".
Definition DECK_ENDPOINTS_DETAIL (id : string) : string := "/v1/decks/" +:+ id.

(** [process.env.NEXT_PUBLIC_API_URL]: a string, or [None] when unset. *)
Definition Env := option string.

End Decks.
Export Decks.

(** The deck service built with ManageService (features/decks/services). *)
Module DeckService.

(** [process.env.NEXT_PUBLIC_API_URL || ''] *)
Definition API_URL (env : Env) : string :=
  match env with
  | Some u => or_string u ""
  | None => ""
  end.

Definition getAll (env : Env) (fetch : Fetch) : Async JsVal :=
  execRequest fetch (prepareRequest (API_URL env) DECK_ENDPOINTS_BASE GET).

Definition getById (env : Env) (fetch : Fetch) (id : string) : Async JsVal :=
  execRequest fetch (prepareRequest (API_URL env) (DECK_ENDPOINTS_DETAIL id) GET).

Definition create (env : Env) (fetch : Fetch) (params : CreateDeckDto)
  : Async JsVal :=
  execRequest fetch
    (setBody (CreateDeckDto_object params)
       (prepareRequest (API_URL env) DECK_ENDPOINTS_BASE POST)).

Definition update (env : Env) (fetch : Fetch) (params : UpdateParams)
  : Async JsVal :=
  execRequest fetch
    (setBody (update_data params)
       (prepareRequest (API_URL env)
          (DECK_ENDPOINTS_DETAIL params.(upd_id)) PUT)).

Definition delete (env : Env) (fetch : Fetch) (id : string) : Async JsVal :=
  execRequest fetch
    (prepareRequest (API_URL env) (DECK_ENDPOINTS_DETAIL id) DELETE).

End DeckService.

(** What the specification expects of a deck operation. *)
Module DeckRequests.

(** The one call a Request Builder request for the decks issues: the JSON
    content type is always sent, the body only when there is one. *)
Definition builder_call (base endpoint : string) (method : HttpMethod)
  (body : option string) : FetchCall :=
  mkCall (base +:+ endpoint)
    (mkInit (Some (method_name method))
       (Some {[ "Content-Type" := "application/json" ]})
       body None).

(** How a Request Builder request settles, given the answer of [fetch]. *)
Definition builder_outcome (fetch : Fetch) (call : FetchCall) : Outcome JsVal :=
  try_catch (handle_response (fetch call.(call_url) call.(call_init))) rethrow.

End DeckRequests.
Export DeckRequests.

(** The deck service that calls [fetch] itself (the deckService of the
    services file that does not import ManageService). *)
Module DeckServiceFetch.

(** [`${API_URL}`] with [API_URL = process.env.NEXT_PUBLIC_API_URL]: an
    unset variable prints as "undefined". *)
Definition API_URL (env : Env) : string :=
  match env with
  | Some u => u
  | None => "undefined"
  end.

(** [if (!res.ok) throw new Error(message); return res.json()]; a rejection
    of [fetch] is not caught. *)
Definition json_or_fail (message : string) (r : FetchOutcome)
  : Outcome JsVal :=
  match r with
  | Rejects t => Threw t
  | Resolves res =>
      if negb (ok res) then Threw (ThrownError (new_Error message))
      else res.(json)
  end.

Definition json_headers : gmap string string :=
  {[ "Content-Type" := "application/json" ]}.

Definition getAll (env : Env) (fetch : Fetch) : Async JsVal :=
  let url := API_URL env +:+ "/v1/decks" in
  let init := mkInit None None None (Some "no-store") in
  ([mkCall url init], json_or_fail "Failed to fetch decks" (fetch url init)).

Definition getById (env : Env) (fetch : Fetch) (id : string) : Async JsVal :=
  let url := API_URL env +:+ "/v1/decks/" +:+ id in
  let init := mkInit None None None (Some "no-store") in
  ([mkCall url init], json_or_fail "Failed to fetch deck" (fetch url init)).

Definition create (env : Env) (fetch : Fetch) (params : CreateDeckDto)
  : Async JsVal :=
  let url := API_URL env +:+ "/v1/decks" in
  let init :=
    mkInit (Some "POST") (Some json_headers)
      (JSON_stringify (CreateDeckDto_object params)) None in
  ([mkCall url init], json_or_fail "Failed to create deck" (fetch url init)).

Definition update (env : Env) (fetch : Fetch) (params : UpdateParams)
  : Async JsVal :=
  let url := API_URL env +:+ "/v1/decks/" +:+ params.(upd_id) in
  let init :=
    mkInit (Some "PUT") (Some json_headers)
      (JSON_stringify (update_data params)) None in
  ([mkCall url init], json_or_fail "Failed to update deck" (fetch url init)).

(** [delete] returns nothing: its promise resolves to [undefined]. *)
Definition delete (env : Env) (fetch : Fetch) (id : string) : Async JsVal :=
  let url := API_URL env +:+ "/v1/decks/" +:+ id in
  let init := mkInit (Some "DELETE") None None None in
  ([mkCall url init],
   match fetch url init with
   | Rejects t => Threw t
   | Resolves res =>
       if negb (ok res)
       then Threw (ThrownError (new_Error "Failed to delete deck"))
       else Returned JUndefined
   end).

End DeckServiceFetch.

(** ** Query hook (useServiceQuery.ts) *)

Module UseServiceQuery.

Definition DEFAULT_RETRY_COUNT : JsVal := JNum 3.
Definition DEFAULT_STALE_TIME : JsVal := JNum (5 * 60 * 1000).
Definition DEFAULT_GC_TIME : JsVal := JNum (10 * 60 * 1000).
Definition DEFAULT_REFETCH_ON_WINDOW_FOCUS : JsVal := JBool true.
Definition DEFAULT_REFETCH_INTERVAL : JsVal := JBool false.

(** The options handed to [useQuery].  [queryFn_argument] is what
    [queryFn] passes to the service: [Some params], or [None] when it calls
    the service without an argument. *)
Record UseQueryOptions := mkQuery {
  queryKey : list JsVal;
  queryFn_argument : option JsVal;
  enabled : JsVal;
  retry : JsVal;
  staleTime : JsVal;
  gcTime : JsVal;
  refetchOnWindowFocus : JsVal;
  refetchInterval : JsVal;
}.

(** [v !== undefined] *)
Definition defined (v : JsVal) : bool :=
  match v with
  | JUndefined => false
  | _ => true
  end.

(** [paramsOrOptions as object || {}] *)
Definition or_empty_object (v : JsVal) : JsVal :=
  if truthy v then v else JObj [].

(** The detection of the third argument:
    [options !== undefined ||
     (paramsOrOptions !== undefined &&
      !('enabled' in o || 'retry' in o || 'staleTime' in o))]
    with [o = paramsOrOptions || {}]; the operators short-circuit. *)
Definition hasParams (paramsOrOptions options : JsVal) : Outcome bool :=
  if defined options then Returned true
  else if negb (defined paramsOrOptions) then Returned false
  else
    let o := or_empty_object paramsOrOptions in
    e <- js_in "enabled" o ;;
    if e : bool then Returned false
    else
      r <- js_in "retry" o ;;
      if r : bool then Returned false
      else
        s <- js_in "staleTime" o ;;
        Returned (negb s).

(** The body of [useServiceQuery] up to the call of [useQuery]: the
    arguments left out of a call are [undefined]. *)
Definition query_options (key : list JsVal) (paramsOrOptions options : JsVal)
  : Outcome UseQueryOptions :=
  has <- hasParams paramsOrOptions options ;;
  let params := if has : bool then paramsOrOptions else JUndefined in
  let finalOptions := if has : bool then options else paramsOrOptions in
  Returned
    (mkQuery
       (if defined params then key ++ [params] else key)
       (if defined params then Some params else None)
       (nullish (get "enabled" finalOptions) (JBool true))
       (nullish (get "retry" finalOptions) DEFAULT_RETRY_COUNT)
       (nullish (get "staleTime" finalOptions) DEFAULT_STALE_TIME)
       (nullish (get "gcTime" finalOptions) DEFAULT_GC_TIME)
       (nullish (get "refetchOnWindowFocus" finalOptions)
          DEFAULT_REFETCH_ON_WINDOW_FOCUS)
       (nullish (get "refetchInterval" finalOptions)
          DEFAULT_REFETCH_INTERVAL)).

(** The third argument is taken as call parameters. *)
Definition taken_as_params (params options : JsVal) : Prop :=
  options ≠ JUndefined
  \/ truthy params = false
  \/ (exists items, params = JArr items)
  \/ (exists props, params = JObj props
        /\ assoc "enabled" props = None
        /\ assoc "retry" props = None
        /\ assoc "staleTime" props = None).

(** *** Sample calls *)

(** Call parameters that carry a key of the options. *)
Definition filter_params : JsVal :=
  JObj [("id", JStr "d1"); ("enabled", JBool true)]%string.

Definition id_params : JsVal := JObj [("id", JStr "d1")]%string.

End UseServiceQuery.

(** ** Mutation hook (useService.ts) *)

Module UseService.

(** Modelled from the spec: the state that [useMutation] of the external
    query library keeps for one hook instance, which is not part of the
    repository.  The specification gives its machine:
    [idle -> pending -> {success, error}]; [reset] returns to [idle] from
    either terminal state; a new [fetch] from a terminal state goes back
    through [pending].  A call of [fetch] starts afresh (no result, no
    error), a resolved call records the result, a rejected call records the
    error. *)
Inductive MutationStatus := idle | pending | success | error.

Record MutationState := mkMutation {
  status : MutationStatus;
  data : JsVal;
  mutation_error : option JsError;
}.

Definition getDefaultState : MutationState := mkMutation idle JUndefined None.

(** What happens to an instance: [fetch(params)] is called, the call
    resolves or rejects, [reset()] is called. *)
Inductive Action :=
| Mutate (params : JsVal)
| Resolved (result : JsVal)
| Rejected (e : JsError)
| Reset.

(** Modelled from the spec: the transitions of that machine. *)
Definition reducer (st : MutationState) (a : Action) : MutationState :=
  match a with
  | Mutate _ => mkMutation pending JUndefined None
  | Resolved result => mkMutation success result st.(mutation_error)
  | Rejected e => mkMutation error JUndefined (Some e)
  | Reset => getDefaultState
  end.

(** The flags the library derives from the status. *)
Definition isPending (st : MutationState) : bool :=
  match st.(status) with pending => true | _ => false end.
Definition isSuccess (st : MutationState) : bool :=
  match st.(status) with success => true | _ => false end.

(** The projection [useService] returns:
    [isLoading: mutation.isPending, isLoaded: mutation.isSuccess,
     error: mutation.error, result: mutation.data]; [fetch] is
    [mutateAsync] and [reset] is the library's, the actions above. *)
Record UseServiceResult := mkResult {
  isLoading : bool;
  isLoaded : bool;
  error_ : option JsError;
  result : JsVal;
}.

Definition useService (mutation : MutationState) : UseServiceResult :=
  mkResult (isPending mutation) (isSuccess mutation)
    mutation.(mutation_error) mutation.(data).

(** The hook after a sequence of actions on an instance in state [st]. *)
Definition after (actions : list Action) (st : MutationState)
  : UseServiceResult :=
  useService (fold_left reducer actions st).

(** The edges of the machine: a call settles only while it is pending, and
    [fetch] is called from [idle] or from a terminal state (a second call
    while one is pending is left to the caller to prevent). *)
Definition enabled (st : MutationState) (a : Action) : bool :=
  match a, st.(status) with
  | Mutate _, pending => false
  | Mutate _, _ => true
  | Resolved _, pending => true
  | Rejected _, pending => true
  | Resolved _, _ => false
  | Rejected _, _ => false
  | Reset, _ => true
  end.

Fixpoint accepts (st : MutationState) (actions : list Action) : bool :=
  match actions with
  | [] => true
  | a :: rest => enabled st a && accepts (reducer st a) rest
  end.

(** What the projection can read in each state of the machine. *)
Definition reads (st : MutationStatus) (r : UseServiceResult) : Prop :=
  match st with
  | idle => r = mkResult false false None JUndefined
  | pending => r = mkResult true false None JUndefined
  | success => r.(isLoading) = false /\ r.(isLoaded) = true
               /\ r.(error_) = None
  | error => r.(isLoading) = false /\ r.(isLoaded) = false
             /\ is_Some r.(error_) /\ r.(result) = JUndefined
  end.

End UseService.

(** ** Notifications (NotificationProvider.tsx, Notification.tsx) *)

Module Notifications.

Inductive NotificationType := success | error | info | warning.

(** NotificationData; [duration] is optional in the type. *)
Record NotificationData := mkNotification {
  id : string;
  type : NotificationType;
  message : string;
  duration : option Z;
}.

(** A timer set by the effect of the Notification component that renders
    [timer_id]; it fires at [fires_at] (milliseconds). *)
Record Timer := mkTimer { timer_id : string; fires_at : Z }.

(** The provider's list, the pending timers of the mounted Notification
    components, and the clock. *)
Record State := mkState {
  notifications : list NotificationData;
  timers : list Timer;
  now : Z;
}.

Definition initial : State := mkState [] [] 0.

(** [prev.filter((notification) => notification.id !== id)] *)
Definition without (i : string) (l : list NotificationData)
  : list NotificationData :=
  filter (fun n => n.(id) ≠ i) l.

(** The effect of a Notification that mounts at time [t]: the default of
    its [duration] prop is 3000, and a timer is set if the duration is
    positive. *)
Definition mount (t : Z) (n : NotificationData) : list Timer :=
  let d := default 3000 n.(duration) in
  if 0 <? d then [mkTimer n.(id) (t + d)] else [].

(** The clean-up of the effects of the Notifications that unmount:
    [clearTimeout]. *)
Definition unmount (i : string) (ts : list Timer) : list Timer :=
  filter (fun t => t.(timer_id) ≠ i) ts.

(** [removeNotification(id)], and the unmounting it causes. *)
Definition removeNotification (i : string) (st : State) : State :=
  mkState (without i st.(notifications)) (unmount i st.(timers)) st.(now).

(** [`${Date.now()}-${Math.random()}`]; [random] is the printed value of
    [Math.random()]. *)
Definition fresh_id (t : Z) (random : string) : string :=
  string_of_Z t +:+ "-" +:+ random.

(** [showNotification(message, type = 'info', duration = 3000)]: a
    parameter left out is [None]. *)
Definition showNotification (message : string) (ty : option NotificationType)
  (dur : option Z) (random : string) (st : State) : State :=
  let n :=
    mkNotification (fresh_id st.(now) random) (default info ty) message
      (Some (default 3000 dur)) in
  mkState (st.(notifications) ++ [n]) (st.(timers) ++ mount st.(now) n)
    st.(now).

Definition show_success (message : string) (dur : option Z) :=
  showNotification message (Some success) dur.
Definition show_error (message : string) (dur : option Z) :=
  showNotification message (Some error) dur.
Definition show_info (message : string) (dur : option Z) :=
  showNotification message (Some info) dur.
Definition show_warning (message : string) (dur : option Z) :=
  showNotification message (Some warning) dur.

(** The timers that have fired once the clock reads [t]. *)
Definition due (t : Z) (ts : list Timer) : list Timer :=
  filter (fun tm => tm.(fires_at) <= t) ts.

(** A timer fires: its callback is [onClose(id)]. *)
Definition fire (tm : Timer) (st : State) : State :=
  removeNotification tm.(timer_id) st.

(** The clock advances by [dt] milliseconds and the timers due by then
    fire, in the order they were set. *)
Definition advance (dt : Z) (st : State) : State :=
  let t := st.(now) + dt in
  let st' := fold_left (fun s tm => fire tm s) (due t st.(timers)) st in
  mkState st'.(notifications) st'.(timers) t.

Inductive Event :=
| Show (message : string) (ty : option NotificationType) (dur : option Z)
    (random : string)
| Close (i : string)
| Advance (dt : Z).

Definition step (st : State) (ev : Event) : State :=
  match ev with
  | Show message ty dur random => showNotification message ty dur random st
  | Close i => removeNotification i st
  | Advance dt => advance dt st
  end.

Definition run (st : State) (evs : list Event) : State :=
  fold_left step evs st.

(** An event that removes [i] by hand, or a later insertion that happens
    to draw the identifier [i] again. *)
Definition touches (i : string) (st : State) (ev : Event) : bool :=
  match ev with
  | Show _ _ _ random => bool_decide (fresh_id st.(now) random = i)
  | Close j => bool_decide (j = i)
  | Advance _ => false
  end.

Fixpoint untouched (i : string) (st : State) (evs : list Event) : bool :=
  match evs with
  | [] => true
  | ev :: rest => negb (touches i st ev) && untouched i (step st ev) rest
  end.

(** No notification and no timer of the state carries the identifier. *)
Definition fresh (i : string) (st : State) : Prop :=
  (forall n, n ∈ st.(notifications) -> n.(id) ≠ i)
  /\ (forall tm, tm ∈ st.(timers) -> tm.(timer_id) ≠ i).

(** The notification is shown and no timer will remove it. *)
Definition persistent (n : NotificationData) (st : State) : Prop :=
  n ∈ st.(notifications)
  /\ (forall tm, tm ∈ st.(timers) -> tm.(timer_id) ≠ n.(id)).

(** *** Sample run: [success("ok", 100)] on an empty provider *)

Definition ok_shown : State := show_success "ok" (Some 100) "0.42" initial.
Definition ok_id : string := fresh_id 0 "0.42".

End Notifications.

(** ** Further definitions: what a submission collects *)

Module FormBuilderValues.
Import FormBuilder.

(** The value the loop of [handleSubmit] stores for a field it accepts:
    the branch of the field's type applied to the submitted entry. *)
Definition field_value (formData : FormData) (field : FieldConfig)
  : FormValue :=
  let value := FormData_get formData field.(name) in
  if String.eqb field.(type) "checkbox" then coerce_checkbox value
  else if String.eqb field.(type) "number" then coerce_number value
  else if entry_truthy value && is_string value then VString (string_of value)
  else VUndefined.

(** The loop throws at this field: it is neither a checkbox nor a number,
    it is required, and its entry is no non-empty string. *)
Definition rejects (formData : FormData) (field : FieldConfig) : bool :=
  let value := FormData_get formData field.(name) in
  negb (String.eqb field.(type) "checkbox")
  && negb (String.eqb field.(type) "number")
  && negb (entry_truthy value && is_string value)
  && field.(required).

(** The error thrown for a field. *)
Definition required_error (field : FieldConfig) : Thrown :=
  ThrownError (new_Error (display_name field +:+ " is required")).

(** The contact form of examples.tsx. *)
Definition contactFormFields : list FieldConfig :=
  [mkField "text" "fullName" "Full Name" true false;
   mkField "email" "email" "Email Address" true false;
   mkField "select" "topic" "Topic" true false;
   mkField "textarea" "message" "Message" true false].

End FormBuilderValues.

(** ** Further definitions: chains of builder calls *)

Module BuilderChain.

(** One call of a fluent setter; each returns the builder itself. *)
Inductive BuilderOp :=
| SetQueryParams (params : list (string * QueryValue))
| SetBody (body : JsVal)
| SetHeaders (headers : gmap string string).

Definition apply_op (rb : RequestBuilder) (op : BuilderOp) : RequestBuilder :=
  match op with
  | SetQueryParams params => setQueryParams params rb
  | SetBody b => setBody b rb
  | SetHeaders hs => setHeaders hs rb
  end.

(** [rb.op1(...).op2(...)...] *)
Definition chain (rb : RequestBuilder) (ops : list BuilderOp)
  : RequestBuilder :=
  fold_left apply_op ops rb.

Definition is_query_op (op : BuilderOp) : bool :=
  match op with
  | SetQueryParams _ => true
  | _ => false
  end.

(** The call sets the header [k]. *)
Definition sets_header (k : string) (op : BuilderOp) : bool :=
  match op with
  | SetHeaders hs => bool_decide (is_Some (hs !! k))
  | _ => false
  end.

(** Characters the form-urlencoded serialiser may emit for a name or a
    value: letters, digits, and [* - . _ + %]. *)
Definition form_safe (c : ascii) : bool :=
  let n := nat_of_ascii c in
  (48 <=? n)%nat && (n <=? 57)%nat
  || (65 <=? n)%nat && (n <=? 90)%nat
  || (97 <=? n)%nat && (n <=? 122)%nat
  || (n =? 42)%nat || (n =? 45)%nat || (n =? 46)%nat || (n =? 95)%nat
  || (n =? 43)%nat || (n =? 37)%nat.

(** How often a character occurs in a string. *)
Fixpoint count_char (c : ascii) (s : string) : nat :=
  match s with
  | EmptyString => 0
  | String x rest => (if Ascii.eqb x c then 1 else 0) + count_char c rest
  end.

Fixpoint string_forall (p : ascii -> bool) (s : string) : bool :=
  match s with
  | EmptyString => true
  | String x rest => p x && string_forall p rest
  end.

(** One [name=value] pair of the query string. *)
Definition pair_text (kv : string * QueryValue) : string :=
  urlencode (fst kv) +:+ "=" +:+ urlencode (String_of (snd kv)).

End BuilderChain.

(** ** Further definitions: the deck operations side by side *)

Module DeckOps.

(** A call of one of the five operations of a deck service. *)
Inductive DeckOp :=
| OpGetAll
| OpGetById (id : string)
| OpCreate (params : CreateDeckDto)
| OpUpdate (params : UpdateParams)
| OpDelete (id : string).

(** The operation on the service built with ManageService. *)
Definition via_builder (env : Env) (fetch : Fetch) (op : DeckOp)
  : Async JsVal :=
  match op with
  | OpGetAll => DeckService.getAll env fetch
  | OpGetById id => DeckService.getById env fetch id
  | OpCreate params => DeckService.create env fetch params
  | OpUpdate params => DeckService.update env fetch params
  | OpDelete id => DeckService.delete env fetch id
  end.

(** The operation on the service that calls [fetch] itself. *)
Definition via_fetch (env : Env) (fetch : Fetch) (op : DeckOp) : Async JsVal :=
  match op with
  | OpGetAll => DeckServiceFetch.getAll env fetch
  | OpGetById id => DeckServiceFetch.getById env fetch id
  | OpCreate params => DeckServiceFetch.create env fetch params
  | OpUpdate params => DeckServiceFetch.update env fetch params
  | OpDelete id => DeckServiceFetch.delete env fetch id
  end.

(** The endpoint an operation addresses. *)
Definition op_endpoint (op : DeckOp) : string :=
  match op with
  | OpGetAll | OpCreate _ => DECK_ENDPOINTS_BASE
  | OpGetById id | OpDelete id => DECK_ENDPOINTS_DETAIL id
  | OpUpdate params => DECK_ENDPOINTS_DETAIL params.(upd_id)
  end.

(** A network that gives the same answer to every call. *)
Definition answering (r : FetchOutcome) : Fetch := fun _ _ => r.

(** The URLs of the calls an operation issued. *)
Definition urls (a : Async JsVal) : list string := call_url <$> fst a.

End DeckOps.

(** ** Further definitions: the first version of the query hook and the
       query keys of the decks *)

Module UseServiceQueryV1.
Import UseServiceQuery.

(** [useServiceQuery] as first written: the parameters are always the
    last element of the key and always passed to the service, and the
    options are handed on as they are. *)
Definition query_options (key : list JsVal) (params options : JsVal)
  : UseQueryOptions :=
  mkQuery (key ++ [params]) (Some params)
    (get "enabled" options) (get "retry" options) (get "staleTime" options)
    (get "gcTime" options) (get "refetchOnWindowFocus" options)
    (get "refetchInterval" options).

(** [useServiceQueryWithoutParams] *)
Definition query_options_without_params (key : list JsVal) (options : JsVal)
  : UseQueryOptions :=
  mkQuery key None
    (get "enabled" options) (get "retry" options) (get "staleTime" options)
    (get "gcTime" options) (get "refetchOnWindowFocus" options)
    (get "refetchInterval" options).

End UseServiceQueryV1.

Module QueryKeys.
Import UseServiceQuery.

(** DECKS_QUERY_KEYS (features/decks/constants/index.ts) *)
Definition DECKS_KEY : string := "decks".
Definition DECKS_QUERY_KEYS_all : list JsVal := [JStr DECKS_KEY].
Definition DECKS_QUERY_KEYS_detail (id : string) : list JsVal :=
  [JStr DECKS_KEY; JStr id].

(** A value that is no object: [undefined], [null], a boolean, a number
    or a string. *)
Definition primitive (v : JsVal) : bool :=
  match v with
  | JArr _ | JObj _ => false
  | _ => true
  end.

(** A setting of the options handed to the query library, by name. *)
Definition setting (k : string) (q : UseQueryOptions) : JsVal :=
  if String.eqb k "enabled" then q.(enabled)
  else if String.eqb k "retry" then q.(retry)
  else if String.eqb k "staleTime" then q.(staleTime)
  else if String.eqb k "gcTime" then q.(gcTime)
  else if String.eqb k "refetchOnWindowFocus" then q.(refetchOnWindowFocus)
  else if String.eqb k "refetchInterval" then q.(refetchInterval)
  else JUndefined.

Definition setting_names : list string :=
  ["enabled"; "retry"; "staleTime"; "gcTime"; "refetchOnWindowFocus";
   "refetchInterval"]%string.

(** The options a call without any option ends up with. *)
Definition default_options (key : list JsVal) (argument : option JsVal)
  : UseQueryOptions :=
  mkQuery key argument (JBool true) (JNum 3) (JNum 300000) (JNum 600000)
    (JBool true) (JBool false).

End QueryKeys.

(** ** Further definitions: runs of the notification provider *)

Module NotificationRuns.
Import Notifications.

(** The duration a Notification component works with. *)
Definition lifetime (n : NotificationData) : Z := default 3000 n.(duration).

(** Every pending timer belongs to a notification that is shown. *)
Definition timers_owned (st : State) : Prop :=
  forall tm, tm ∈ st.(timers) ->
    exists n, n ∈ st.(notifications) /\ n.(id) = tm.(timer_id).

(** Every shown notification with a positive duration has a pending
    timer. *)
Definition timed_have_timers (st : State) : Prop :=
  forall n, n ∈ st.(notifications) -> 0 < lifetime n ->
    exists tm, tm ∈ st.(timers) /\ tm.(timer_id) = n.(id).

(** Every pending timer fires later than the clock reads. *)
Definition timers_ahead (st : State) : Prop :=
  forall tm, tm ∈ st.(timers) -> st.(now) < tm.(fires_at).

(** The records the [Show] events of a run insert, in the order of the
    events. *)
Fixpoint inserted (st : State) (evs : list Event) : list NotificationData :=
  match evs with
  | [] => []
  | ev :: rest =>
      match ev with
      | Show message ty dur random =>
          [mkNotification (fresh_id st.(now) random) (default info ty) message
             (Some (default 3000 dur))]
      | _ => []
      end ++ inserted (step st ev) rest
  end.

End NotificationRuns.

(** ** Further definitions: the create-deck form (CreateDeckForm.tsx) *)

Module CreateDeckForm.
Import FormBuilder.

(** [`Deck "${data.name}" created successfully!`] *)
Definition success_message (deck_name : string) : string :=
  "Deck " +:+ String dquote deck_name
  +:+ String dquote " created successfully!".

(** [handleCreateSuccess]: the decks are invalidated and a success
    notification is shown; the result is the invalidated key and the
    provider's new state. *)
Definition handleCreateSuccess (deck_name : string) (random : string)
  (st : Notifications.State) : list JsVal * Notifications.State :=
  (QueryKeys.DECKS_QUERY_KEYS_all,
   Notifications.show_success (success_message deck_name) None random st).

(** [handleCreateError]: the error is logged and an error notification
    with a fixed text is shown. *)
Definition handleCreateError (err : JsError) (random : string)
  (st : Notifications.State) : Notifications.State :=
  Notifications.show_error "Failed to create deck. Please try again." None
    random st.

(** The values object of the form read as a CreateDeckDto: its [name] and
    [description] properties. *)
Definition dto_of (values : gmap string FormValue) : CreateDeckDto :=
  mkCreate
    (match values !! "name"%string with
     | Some (VString s) => s
     | _ => ""
     end)
    (match values !! "description"%string with
     | Some (VString s) => Some s
     | _ => None
     end).

(** A submit event on the form: [FormBuilder] validates and collects,
    [handleSubmit] hands the values to [createDeck.fetch], which calls
    [deckService.create] with them. *)
Definition submit (env : Env) (fetch : Fetch) (formData : FormData)
  : Async JsVal :=
  match FormBuilder.handleSubmit createDeckFormFields formData with
  | TransitionStarted values => DeckService.create env fetch (dto_of values)
  | ValidationThrew t => ([], Threw t)
  end.

End CreateDeckForm.

(** * Properties *)

(** ** Strings *)

Section Strings.

Lemma append_nil_r (s : string) : s +:+ "" = s.
Proof.
  induction s as [|c s IH]; [done |].
  change (String c (s +:+ "") = String c s). by f_equal.
Qed.

Lemma append_assoc (a b c : string) : (a +:+ b) +:+ c = a +:+ b +:+ c.
Proof.
  induction a as [|x a IH]; [done |].
  change (String x ((a +:+ b) +:+ c) = String x (a +:+ b +:+ c)). by f_equal.
Qed.

Lemma includes_infix (pre s post : string) : includes (pre +:+ s +:+ post) s.
Proof. by exists pre, post. Qed.

Lemma includes_suffix (pre s : string) : includes (pre +:+ s) s.
Proof. exists pre, ""%string. by rewrite append_nil_r. Qed.

Lemma or_string_nonempty (a b : string) : a ≠ ""%string -> or_string a b = a.
Proof.
  intros Ha. unfold or_string.
  destruct (String.eqb_spec a ""); [contradiction | done].
Qed.

End Strings.

(** ** Number parsing *)

Module JsNumberProps.
Import FormBuilder.



















































(** *** What every text that denotes a number is made of *)





















End JsNumberProps.

(** ** Field renderer and form builder *)

Module FormBuilderProps.
Import FormBuilder.

Example Field_text : Field title_field true
                     = Some (mkElement TextField title_field true).
Proof. reflexivity. Qed.

Example Field_hidden : Field hidden_field false = None.
Proof. reflexivity. Qed.

(** C9. A configuration whose type is none of the eight supported tags
    renders nothing; each of the eight tags renders the field component
    written for it, with the same configuration and disabled flag. *)
Theorem Field_renders_matching_widget (config : FieldConfig) (d : bool) :
  (config.(type) ∉ FieldType -> Field config d = None)
  /\ (config.(type) = "text"%string ->
      Field config d = Some (mkElement TextField config d))
  /\ (config.(type) = "email"%string ->
      Field config d = Some (mkElement EmailField config d))
  /\ (config.(type) = "password"%string ->
      Field config d = Some (mkElement PasswordField config d))
  /\ (config.(type) = "number"%string ->
      Field config d = Some (mkElement NumberField config d))
  /\ (config.(type) = "textarea"%string ->
      Field config d = Some (mkElement TextareaField config d))
  /\ (config.(type) = "select"%string ->
      Field config d = Some (mkElement SelectField config d))
  /\ (config.(type) = "checkbox"%string ->
      Field config d = Some (mkElement CheckboxField config d))
  /\ (config.(type) = "radio"%string ->
      Field config d = Some (mkElement RadioField config d)).
Proof.
  split.
  - intros Hnot. unfold Field.
    repeat match goal with
           | |- context [String.eqb ?a ?b] =>
               destruct (String.eqb_spec a b) as [Heq | _];
               [exfalso; apply Hnot; rewrite Heq; unfold FieldType;
                set_solver |]
           end.
    reflexivity.
  - repeat split; intros Heq; unfold Field; rewrite Heq; reflexivity.
Qed.

Lemma Field_renders_matching_widget_witness :
  Field hidden_field false = None
  /\ Field title_field true = Some (mkElement TextField title_field true).
Proof.
  split.
  - apply (proj1 (Field_renders_matching_widget hidden_field false)).
    unfold FieldType, hidden_field. simpl. intros Hin.
    repeat (apply elem_of_cons in Hin as [Hin | Hin]; [discriminate |]).
    by apply elem_of_nil in Hin.
  - apply (proj1 (proj2 (Field_renders_matching_widget title_field true))).
    reflexivity.
Defined.

(** *** Coercion of number fields *)

Example coerce_number_42 :
  coerce_number (Some (EntryString "42")) = VNumber (Finite 42).
Proof. reflexivity. Qed.

Example coerce_number_fraction :
  coerce_number (Some (EntryString "-2.50")) = VNumber (Finite (-5 # 2)).
Proof. reflexivity. Qed.

Example coerce_number_zero :
  coerce_number (Some (EntryString "0")) = VNumber (Finite 0).
Proof. reflexivity. Qed.

(** White space alone is the numeric literal of zero. *)
Example coerce_number_blank :
  coerce_number (Some (EntryString " ")) = VNumber (Finite 0).
Proof. reflexivity. Qed.

Example coerce_number_letters :
  coerce_number (Some (EntryString "abc")) = VUndefined.
Proof. reflexivity. Qed.

Example coerce_number_empty : coerce_number (Some (EntryString "")) = VUndefined.
Proof. reflexivity. Qed.

Example coerce_number_absent : coerce_number None = VUndefined.
Proof. reflexivity. Qed.

Example coerce_number_file :
  coerce_number (Some (EntryFile "a.txt")) = VUndefined.
Proof. reflexivity. Qed.

Lemma coerce_number_spec (value : option FormDataEntryValue) :
  coerce_number value
  = match numeric_value value with
    | Some n => VNumber n
    | None => VUndefined
    end.
Proof.
  destruct value as [[s | f] |]; [| reflexivity | reflexivity].
  unfold coerce_number, numeric_value, entry_truthy, Number.
  destruct (String.eqb s ""); [reflexivity |].
  simpl. destruct (StringToNumber s); reflexivity.
Qed.



(** Rounding to a double is to the nearest, ties to even, with the range
    of a double. *)
Example coerce_number_rounds :
  coerce_number (Some (EntryString "9007199254740993"))
  = VNumber (Finite 9007199254740992)
  /\ coerce_number (Some (EntryString "0.1"))
     = VNumber (Finite (3602879701896397 # 36028797018963968))
  /\ coerce_number (Some (EntryString "1e400")) = VNumber (Infinity false)
  /\ coerce_number (Some (EntryString "-1e-400")) = VNumber NegZero
  /\ coerce_number (Some (EntryString "0x1F")) = VNumber (Finite 31).
Proof. repeat split; vm_compute; reflexivity. Qed.

(** White space beyond U+007F is trimmed as well. *)
Example coerce_number_no_break_space :
  coerce_number
    (Some (EntryString (no_break_space +:+ "42" +:+ no_break_space)))
  = VNumber (Finite 42)
  /\ coerce_number (Some (EntryString ("4" +:+ no_break_space +:+ "2")))
     = VUndefined.
Proof. split; vm_compute; reflexivity. Qed.



(** *** Required fields *)

Lemma collect_text_like_missing (fields : list FieldConfig)
  (formData : FormData) (values : gmap string FormValue) :
  Exists (fun f => text_like f /\ f.(required) = true /\ missing formData f)
    fields ->
  exists f, f ∈ fields /\ text_like f /\ f.(required) = true
            /\ missing formData f
            /\ collect fields formData values
               = Threw (ThrownError
                          (new_Error (display_name f +:+ " is required"))).
Proof.
  revert values.
  induction fields as [| field rest IH]; intros values Hex.
  - inversion Hex.
  - assert (Hrest : Exists (fun f => text_like f /\ f.(required) = true
                                     /\ missing formData f) rest ->
                    forall vs, exists f, f ∈ field :: rest /\ text_like f
                      /\ f.(required) = true /\ missing formData f
                      /\ collect rest formData vs
                         = Threw (ThrownError
                             (new_Error (display_name f +:+ " is required")))).
    { intros Hr vs. destruct (IH vs Hr) as (f & Hin & Hrest).
      exists f. split; [by apply elem_of_cons; right | exact Hrest]. }
    simpl.
    destruct (String.eqb_spec field.(type) "checkbox") as [Hc | Hc].
    { inversion Hex as [? ? (Htl & _) | ? ? Hr]; subst.
      - by destruct Htl.
      - by apply Hrest. }
    destruct (String.eqb_spec field.(type) "number") as [Hn | Hn].
    { inversion Hex as [? ? (Htl & _) | ? ? Hr]; subst.
      - by destruct Htl.
      - by apply Hrest. }
    destruct (entry_truthy (FormData_get formData field.(name))
              && is_string (FormData_get formData field.(name))) eqn:Hval.
    { inversion Hex as [? ? (_ & _ & Hm) | ? ? Hr]; subst.
      - unfold missing in Hm. congruence.
      - by apply Hrest. }
    destruct field.(required) eqn:Hreq.
    + exists field. repeat split; try done. apply elem_of_cons; by left.
    + inversion Hex as [? ? (_ & Hr' & _) | ? ? Hr]; subst.
      * congruence.
      * by apply Hrest.
Qed.

(** For the text-like types a missing required value stops the submission
    before the handler is called, with an error that names a field of the
    form by its label, or by its name when the label is empty. *)
Lemma required_text_field_rejected (fields : list FieldConfig)
  (formData : FormData) :
  Exists (fun f => text_like f /\ f.(required) = true /\ missing formData f)
    fields ->
  handler_calls (handleSubmit fields formData) = []
  /\ exists f, f ∈ fields /\ text_like f /\ f.(required) = true
       /\ missing formData f
       /\ handleSubmit fields formData
          = ValidationThrew
              (ThrownError (new_Error (display_name f +:+ " is required"))).
Proof.
  intros Hex.
  destruct (collect_text_like_missing fields formData ∅ Hex)
    as (f & Hin & Htl & Hreq & Hm & Hc).
  unfold handleSubmit. rewrite Hc. split; [reflexivity |].
  exists f. repeat (split; [assumption |]). reflexivity.
Qed.

Example create_deck_without_name :
  handleSubmit createDeckFormFields
    [("name", EntryString ""); ("description", EntryString "A1")]%string
  = ValidationThrew (ThrownError (new_Error "Deck Name is required")).
Proof. reflexivity. Qed.

Example create_deck_with_name :
  handleSubmit createDeckFormFields
    [("name", EntryString "Nouns"); ("description", EntryString "")]%string
  = TransitionStarted
      (<["description"%string := VUndefined]>
         {[ "name"%string := VString "Nouns" ]}).
Proof. reflexivity. Qed.

Example required_title_rejected :
  handleSubmit [title_field] []
  = ValidationThrew (ThrownError (new_Error "Title is required")).
Proof. reflexivity. Qed.

(** Number and checkbox fields never stop a submission, required or not. *)
Lemma number_and_checkbox_never_rejected (fields : list FieldConfig)
  (formData : FormData) :
  Forall (fun f => f.(type) = "number"%string \/ f.(type) = "checkbox"%string)
    fields ->
  exists values, handleSubmit fields formData = TransitionStarted values.
Proof.
  intros Hall. unfold handleSubmit.
  assert (H : forall vs, exists values,
               collect fields formData vs = Returned values).
  { induction Hall as [| f rest [Hty | Hty] _ IH]; intros vs; simpl.
    - by exists vs.
    - rewrite Hty. simpl. apply IH.
    - rewrite Hty. simpl. apply IH. }
  destruct (H ∅) as [values Hc]. rewrite Hc. by exists values.
Qed.

(** C1, at the inputs where the code departs from it.  A required number
    field submitted empty and a required checkbox left unchecked do not
    stop the submission: no error is thrown and the handler is called,
    with [undefined] and [false] as their values. *)
Theorem required_number_and_checkbox_not_enforced :
  age_field.(required) = true
  /\ coerce_number (FormData_get [("age", EntryString "")]%string "age")
     = VUndefined
  /\ handleSubmit [age_field] [("age", EntryString "")]%string
     = TransitionStarted {[ "age"%string := VUndefined ]}
  /\ handler_calls (handleSubmit [age_field] [("age", EntryString "")]%string)
     = [ {[ "age"%string := VUndefined ]} ]
  /\ handleSubmit [age_field] [] = TransitionStarted {[ "age"%string := VUndefined ]}
  /\ handleSubmit [terms_field] []
     = TransitionStarted {[ "terms"%string := VBoolean false ]}.
Proof. repeat split; reflexivity. Qed.

(** *** Single flight *)

Lemma on_submit_single_flight (fields : list FieldConfig) (formData : FormData)
  (st : FormState) :
  st.(isPending) = false -> st.(in_flight) = [] ->
  single_flight (on_submit fields formData st).
Proof.
  intros Hp Hf. unfold on_submit.
  destruct (handleSubmit fields formData) as [t | values].
  - left. by split.
  - right. simpl. split; [reflexivity |]. exists values. by rewrite Hf.
Qed.

Lemma step_single_flight (fields : list FieldConfig) (st : FormState)
  (ev : Event) :
  from_controls ev = true -> single_flight st ->
  single_flight (step fields st ev).
Proof.
  intros Hev Hinv. destruct ev as [formData | formData |]; simpl in *.
  - unfold submit_disabled, Button_isDisabled. simpl.
    destruct Hinv as [[Hp Hf] | [Hp Hf]]; rewrite Hp.
    + by apply on_submit_single_flight.
    + right. by split.
  - discriminate.
  - unfold on_settled.
    destruct Hinv as [[Hp Hf] | [Hp [values Hf]]]; rewrite Hf.
    + left. by split.
    + left. split; reflexivity.
Qed.

Lemma run_single_flight (fields : list FieldConfig) (evs : list Event)
  (st : FormState) :
  forallb from_controls evs = true -> single_flight st ->
  single_flight (fold_left (step fields) evs st).
Proof.
  revert st. induction evs as [| ev evs IH]; intros st Hall Hinv; [done |].
  simpl in *. apply andb_prop in Hall as [Hev Hall].
  apply IH; [done |]. by apply step_single_flight.
Qed.

Lemma on_submit_started (fields : list FieldConfig) (formData : FormData)
  (st : FormState) :
  (on_submit fields formData st).(started) ≠ st.(started) ->
  (on_submit fields formData st).(in_flight)
  = st.(in_flight) ++ handler_calls (handleSubmit fields formData).
Proof.
  unfold on_submit.
  destruct (handleSubmit fields formData) as [t | values]; simpl; [done |].
  reflexivity.
Qed.

(** The handler itself does not consult the flag: a submit event that
    reaches it while a call is pending starts another call. *)
Lemma handleSubmit_unguarded (fields : list FieldConfig) (formData : FormData)
  (st : FormState) (values : gmap string FormValue) :
  handleSubmit fields formData = TransitionStarted values ->
  (step fields st (DispatchSubmit formData)).(in_flight)
  = st.(in_flight) ++ [values].
Proof. intros H. simpl. unfold on_submit. by rewrite H. Qed.

(** C3 as stated fails: two submit events dispatched to the form one after
    the other; the second reaches [handleSubmit] while the flag is up and
    two calls of the handler are pending. *)
Lemma pending_flag_not_checked_by_handler :
  let st1 := run [] [DispatchSubmit []] in
  let st2 := run [] [DispatchSubmit []; DispatchSubmit []] in
  st1.(isPending) = true
  /\ st2.(in_flight) = [∅; ∅]
  /\ ~ (length st2.(in_flight) <= 1)%nat.
Proof.
  repeat split. simpl. lia.
Qed.

Lemma Field_props (config : FieldConfig) (d : bool) (e : Element) :
  Field config d = Some e -> e.(props_config) = config /\ e.(props_disabled) = d.
Proof.
  unfold Field.
  repeat match goal with
         | |- context [String.eqb ?a ?b] => destruct (String.eqb a b)
         end; intros H; inversion H; by split.
Qed.

(** While the flag is up every rendered field is disabled. *)
Lemma fields_disabled_while_pending (fields : list FieldConfig)
  (st : FormState) (e : Element) :
  st.(isPending) = true -> Some e ∈ render_fields fields st ->
  control_disabled e = true.
Proof.
  intros Hp Hin. unfold render_fields in Hin.
  apply list_elem_of_fmap in Hin as (field & Hf & _).
  symmetry in Hf. apply Field_props in Hf as [_ Hd].
  unfold control_disabled. by rewrite Hd, Hp.
Qed.

(** C3, amended.  While a call of the handler is pending the flag disables
    the submit control, so for submissions made through the rendered
    controls at most one call is pending in every reachable state, the
    flag is up exactly when one is, and a new call starts only when none
    is pending. *)
Theorem submissions_through_controls_sequential (fields : list FieldConfig)
  (evs : list Event) (ev : Event) :
  forallb from_controls evs = true ->
  from_controls ev = true ->
  let st := run fields evs in
  (length st.(in_flight) <= 1)%nat
  /\ (st.(isPending) = true <-> st.(in_flight) ≠ [])
  /\ submit_disabled st = st.(isPending)
  /\ (st.(isPending) = true ->
      forall e, Some e ∈ render_fields fields st -> control_disabled e = true)
  /\ ((step fields st ev).(started) ≠ st.(started) ->
      st.(isPending) = false /\ st.(in_flight) = []
      /\ exists values, (step fields st ev).(in_flight) = [values]).
Proof.
  intros Hall Hev st.
  assert (Hinv : single_flight st).
  { apply run_single_flight; [done |]. left. by split. }
  split; [| split; [| split; [| split]]].
  - destruct Hinv as [[_ Hf] | [_ [values Hf]]]; rewrite Hf; simpl; lia.
  - destruct Hinv as [[Hp Hf] | [Hp [values Hf]]]; rewrite Hp, Hf.
    + split; [discriminate | congruence].
    + split; [discriminate | reflexivity].
  - reflexivity.
  - intros Hp e. by apply fields_disabled_while_pending.
  - intros Hstarted.
    destruct ev as [formData | formData |]; simpl in *; [| discriminate |].
    + unfold submit_disabled, Button_isDisabled in *. simpl in *.
      destruct Hinv as [[Hp Hf] | [Hp Hf]]; rewrite Hp in *; [| done].
      split; [done |]. split; [done |].
      pose proof (on_submit_started fields formData st Hstarted) as Hs.
      rewrite Hs, Hf. unfold on_submit in Hstarted.
      destruct (handleSubmit fields formData) as [t | values]; [done |].
      by exists values.
    + unfold on_settled in Hstarted.
      destruct st.(in_flight); simpl in Hstarted; congruence.
Qed.

Lemma submissions_through_controls_sequential_witness :
  let clicks := [ClickSubmit [("title", EntryString "Nouns")]%string;
                 ClickSubmit [("title", EntryString "Verbs")]%string] in
  (length (run [title_field] clicks).(in_flight) <= 1)%nat.
Proof.
  intros clicks.
  exact (proj1 (submissions_through_controls_sequential [title_field] clicks
                  HandlerSettled eq_refl eq_refl)).
Defined.

End FormBuilderProps.

(** ** Request builder *)

Module RequestBuilderProps.

Example status_404 : string_of_nat 404 = "404"%string.
Proof. reflexivity. Qed.

(** The round trip of the specification: a GET answered by 200 and the
    deck [d1] returns that deck. *)
Example execRequest_round_trip :
  execRequest fetch_deck_d1 (prepareRequest "" "/v1/decks/d1" GET)
  = ([mkCall "/v1/decks/d1"
        (mkInit (Some "GET"%string)
           (Some {[ "Content-Type"%string := "application/json"%string ]})
           None None)],
     Returned deck_d1).
Proof. reflexivity. Qed.

Example execRequest_query_string :
  request_url
    (setQueryParams [("q", QString "a b"); ("page", QNumber 2)]%string
       (prepareRequest "http://api" "/v1/decks" GET))
  = "http://api/v1/decks?q=a+b&page=2"%string.
Proof. reflexivity. Qed.

(** A thrown value that is no Error is replaced by the generic Error; an
    Error passes through. *)
Lemma rethrow_spec (t : Thrown) :
  rethrow t
  = Threw (ThrownError
             match t with
             | ThrownError e => e
             | ThrownValue _ => new_Error "An unexpected error occurred"
             end).
Proof. by destruct t. Qed.

(** [execRequest] calls [fetch] once, whatever happens next. *)
Lemma execRequest_one_call (fetch : Fetch) (rb : RequestBuilder) :
  fst (execRequest fetch rb) = [mkCall (request_url rb) (request_options rb)].
Proof. reflexivity. Qed.

(** C5. When the response of an executed request has a status outside 200
    to 299, the call fails with an Error whose message is "HTTP ", the
    status in decimal, ": " and the body text, or the status text when the
    body is empty; so the message contains the status and that text, and
    for a 404 with body "Not found" it contains "404" and "Not found". *)
Theorem execRequest_error_carries_status_and_body (fetch : Fetch)
  (rb : RequestBuilder) (response : Response) :
  fetch (request_url rb) (request_options rb) = Resolves response ->
  ok response = false ->
  let detail := or_string response.(text) response.(statusText) in
  let message :=
    ("HTTP " +:+ string_of_nat response.(Http.status) +:+ ": " +:+ detail)%string in
  snd (execRequest fetch rb) = Threw (ThrownError (new_Error message))
  /\ includes message (string_of_nat response.(Http.status))
  /\ includes message detail
  /\ (response.(text) ≠ ""%string -> detail = response.(text))
  /\ (response.(text) = ""%string -> detail = response.(statusText))
  /\ (response.(Http.status) = 404%nat ->
      response.(text) = "Not found"%string ->
      includes message "404" /\ includes message "Not found").
Proof.
  intros Hfetch Hok detail message.
  assert (Hstatus : includes message (string_of_nat response.(Http.status))).
  { apply includes_infix. }
  assert (Hdetail : includes message detail).
  { unfold message. rewrite <- !append_assoc. apply includes_suffix. }
  split; [| split; [| split; [| split; [| split]]]].
  - unfold execRequest. simpl. rewrite Hfetch. simpl. rewrite Hok. reflexivity.
  - exact Hstatus.
  - exact Hdetail.
  - intros Hne. by apply or_string_nonempty.
  - intros He. unfold detail. by rewrite He.
  - intros H404 Hbody. split.
    + by rewrite H404 in Hstatus.
    + unfold detail in Hdetail. by rewrite Hbody in Hdetail.
Qed.

Lemma execRequest_error_carries_status_and_body_witness :
  snd (execRequest fetch_not_found (prepareRequest "" "/v1/decks/d9" GET))
  = Threw (ThrownError (new_Error "HTTP 404: Not found")).
Proof.
  exact (proj1 (execRequest_error_carries_status_and_body fetch_not_found
                  (prepareRequest "" "/v1/decks/d9" GET) not_found
                  eq_refl eq_refl)).
Defined.

End RequestBuilderProps.

(** ** Deck services *)

Module DeckServiceProps.

Example create_body :
  JSON_stringify (CreateDeckDto_object (mkCreate "My Deck" None))
  = Some (String.concat (String dquote EmptyString)
            ["{"; "name"; ":"; "My Deck"; "}"]%string).
Proof. reflexivity. Qed.

(** C2 as stated fails for the deck service that calls [fetch] itself: on
    a 404 with body "Not found" its list operation throws the fixed message
    "Failed to fetch decks", the Request Builder request for the same
    endpoint throws "HTTP 404: Not found"; the options differ as well
    (no Content-Type header, a cache mode). *)
Lemma fetch_deck_service_differs_from_builder :
  let env := Some "http://api"%string in
  let request := prepareRequest "http://api" DECK_ENDPOINTS_BASE GET in
  snd (DeckServiceFetch.getAll env fetch_not_found)
  = Threw (ThrownError (new_Error "Failed to fetch decks"))
  /\ snd (execRequest fetch_not_found request)
     = Threw (ThrownError (new_Error "HTTP 404: Not found"))
  /\ fst (DeckServiceFetch.getAll env fetch_not_found)
     = [mkCall "http://api/v1/decks"
          (mkInit None None None (Some "no-store"%string))]
  /\ DeckServiceFetch.getAll env fetch_not_found
     ≠ execRequest fetch_not_found request.
Proof.
  repeat split; intros H; discriminate H.
Qed.

(** C2, amended.  Every operation of the deck service built with
    ManageService is one Request Builder request: it equals the
    [execRequest] of the builder for its endpoint and method (with the
    parameters as body for create and update), it issues exactly one call of
    [fetch], to the base URL followed by the endpoint, with the method, the
    JSON content type and the serialised body, and it settles as
    [execRequest] does.  The deck service that calls [fetch] itself issues
    one call per operation as well, to the same endpoints. *)
Theorem deck_service_is_one_builder_request (env : Env) (fetch : Fetch)
  (id : string) (dto : CreateDeckDto) (upd : UpdateParams) :
  let base := DeckService.API_URL env in
  let list_call := builder_call base "/v1/decks" GET None in
  let get_call := builder_call base ("/v1/decks/" +:+ id) GET None in
  let create_call :=
    builder_call base "/v1/decks" POST
      (JSON_stringify (CreateDeckDto_object dto)) in
  let update_call :=
    builder_call base ("/v1/decks/" +:+ upd.(upd_id)) PUT
      (JSON_stringify (update_data upd)) in
  let delete_call := builder_call base ("/v1/decks/" +:+ id) DELETE None in
  (DeckService.getAll env fetch
   = execRequest fetch (prepareRequest base "/v1/decks" GET)
   /\ DeckService.getAll env fetch
      = ([list_call], builder_outcome fetch list_call))
  /\ (DeckService.getById env fetch id
      = execRequest fetch (prepareRequest base ("/v1/decks/" +:+ id) GET)
      /\ DeckService.getById env fetch id
         = ([get_call], builder_outcome fetch get_call))
  /\ (DeckService.create env fetch dto
      = execRequest fetch
          (setBody (CreateDeckDto_object dto)
             (prepareRequest base "/v1/decks" POST))
      /\ DeckService.create env fetch dto
         = ([create_call], builder_outcome fetch create_call))
  /\ (DeckService.update env fetch upd
      = execRequest fetch
          (setBody (update_data upd)
             (prepareRequest base ("/v1/decks/" +:+ upd.(upd_id)) PUT))
      /\ DeckService.update env fetch upd
         = ([update_call], builder_outcome fetch update_call))
  /\ (DeckService.delete env fetch id
      = execRequest fetch (prepareRequest base ("/v1/decks/" +:+ id) DELETE)
      /\ DeckService.delete env fetch id
         = ([delete_call], builder_outcome fetch delete_call))
  /\ (let url (endpoint : string) := DeckServiceFetch.API_URL env +:+ endpoint in
      call_url <$> fst (DeckServiceFetch.getAll env fetch) = [url "/v1/decks"]
      /\ call_url <$> fst (DeckServiceFetch.getById env fetch id)
         = [url ("/v1/decks/" +:+ id)]
      /\ call_url <$> fst (DeckServiceFetch.create env fetch dto)
         = [url "/v1/decks"]
      /\ call_url <$> fst (DeckServiceFetch.update env fetch upd)
         = [url ("/v1/decks/" +:+ upd.(upd_id))]
      /\ call_url <$> fst (DeckServiceFetch.delete env fetch id)
         = [url ("/v1/decks/" +:+ id)]).
Proof.
  repeat split.
Qed.

End DeckServiceProps.

(** ** Query hook *)

Module UseServiceQueryProps.
Import UseServiceQuery.

Example key_with_params :
  queryKey <$> (match query_options [JStr "deck"] id_params JUndefined with
                | Returned q => Some q
                | Threw _ => None
                end)
  = Some [JStr "deck"; id_params].
Proof. reflexivity. Qed.

(** The call of the decks page: [undefined] as parameters, then options. *)
Example key_of_decks_page :
  query_options [JStr "decks"] JUndefined
    (JObj [("staleTime"%string, JNum 30000)])
  = Returned
      (mkQuery [JStr "decks"] None (JBool true) (JNum 3) (JNum 30000)
         (JNum 600000) (JBool true) (JBool false)).
Proof. reflexivity. Qed.

(** A truthy primitive as third argument, with no fourth: the [in]
    operator throws. *)
Example primitive_params_throw :
  query_options [JStr "deck"] (JStr "d1") JUndefined
  = Threw (ThrownError
             (new_TypeError "Cannot use 'in' operator to search for 'enabled'")).
Proof. reflexivity. Qed.

Lemma index_is_no_option_name (k : string) (i : nat) :
  k = "enabled"%string \/ k = "retry"%string \/ k = "staleTime"%string ->
  String.eqb k (string_of_nat i) = false.
Proof.
  intros Hk. unfold string_of_nat.
  destruct (Nat.to_uint i); destruct Hk as [-> | [-> | ->]]; reflexivity.
Qed.

Lemma js_in_array (k : string) (items : list JsVal) :
  k = "enabled"%string \/ k = "retry"%string \/ k = "staleTime"%string ->
  js_in k (JArr items) = Returned false.
Proof.
  intros Hk. unfold js_in. f_equal.
  assert (Hlen : String.eqb k "length" = false)
    by (destruct Hk as [-> | [-> | ->]]; reflexivity).
  rewrite Hlen. simpl.
  induction (seq 0 (length items)) as [| i l IH]; [done |].
  simpl. by rewrite index_is_no_option_name, IH.
Qed.

Lemma js_in_object (k : string) (props : list (string * JsVal)) :
  js_in k (JObj props) = Returned (bool_decide (is_Some (assoc k props))).
Proof. reflexivity. Qed.

Lemma hasParams_taken (params options : JsVal) :
  params ≠ JUndefined -> taken_as_params params options ->
  hasParams params options = Returned true.
Proof.
  intros Hp Ht. unfold hasParams.
  destruct (defined options) eqn:Ho; [done |].
  assert (options = JUndefined) as -> by (by destruct options).
  assert (Hd : defined params = true) by (by destruct params).
  rewrite Hd. cbn [negb].
  destruct Ht as [Ht | [Ht | [[items ->] | (props & -> & He & Hr & Hs)]]].
  - done.
  - unfold or_empty_object. rewrite Ht. reflexivity.
  - unfold or_empty_object. cbn [truthy].
    rewrite !js_in_array by tauto. reflexivity.
  - unfold or_empty_object. cbn [truthy].
    rewrite !js_in_object, He, Hr, Hs. reflexivity.
Qed.

(** C4, at the call [useServiceQuery(['deck'], service, {id: 'd1',
    enabled: true})] of the overload with parameters: the cache key should
    be the supplied key with the parameters appended, and the hook leaves
    it as supplied.  The parameters hold the key [enabled], so that,
    passed without a fourth argument, they are read as the options, and
    the service is called without them. *)
Lemma params_with_option_key_not_appended :
  exists q,
    query_options [JStr "deck"] filter_params JUndefined = Returned q
    /\ q.(queryKey) = [JStr "deck"]
    /\ q.(queryKey) ≠ [JStr "deck"] ++ [filter_params]
    /\ q.(queryFn_argument) = None.
Proof.
  eexists. split; [reflexivity |]. repeat split. intros H. discriminate H.
Qed.

(** Where the detection does take the third argument as the parameters,
    the cache key handed to the query library is the supplied key with
    the parameters appended: the parameters are not [undefined], and an
    options argument is supplied as well, or the parameters are an object
    without the keys [enabled], [retry] and [staleTime], an array, or a
    falsy value. *)
Theorem params_appended_to_cache_key (key : list JsVal)
  (params options : JsVal) :
  params ≠ JUndefined ->
  taken_as_params params options ->
  exists q,
    query_options key params options = Returned q
    /\ q.(queryKey) = key ++ [params]
    /\ q.(queryFn_argument) = Some params.
Proof.
  intros Hp Ht. unfold query_options.
  rewrite (hasParams_taken params options Hp Ht). simpl.
  assert (Hd : defined params = true) by (by destruct params).
  rewrite Hd. eexists. by repeat split.
Qed.

Lemma params_appended_to_cache_key_witness :
  exists q,
    query_options [JStr "deck"] filter_params (JObj []) = Returned q
    /\ q.(queryKey) = [JStr "deck"] ++ [filter_params]
    /\ q.(queryFn_argument) = Some filter_params.
Proof.
  apply (params_appended_to_cache_key [JStr "deck"] filter_params (JObj [])).
  - discriminate.
  - left. discriminate.
Defined.

(** An object with one of the three keys, passed without a fourth
    argument, is the options: the key is left as supplied. *)
Lemma options_in_third_position (key : list JsVal)
  (props : list (string * JsVal)) :
  is_Some (assoc "enabled" props) \/ is_Some (assoc "retry" props)
  \/ is_Some (assoc "staleTime" props) ->
  exists q,
    query_options key (JObj props) JUndefined = Returned q
    /\ q.(queryKey) = key
    /\ q.(queryFn_argument) = None
    /\ q.(enabled) = nullish (get "enabled" (JObj props)) (JBool true).
Proof.
  intros Hk. unfold query_options, hasParams. simpl.
  destruct (assoc "enabled" props) as [e |] eqn:He; simpl.
  { eexists. repeat split. simpl. by rewrite He. }
  destruct (assoc "retry" props) as [r |] eqn:Hr; simpl.
  { eexists. repeat split. simpl. by rewrite He. }
  destruct (assoc "staleTime" props) as [s |] eqn:Hs; simpl.
  { eexists. repeat split. simpl. by rewrite He. }
  destruct Hk as [[? H] | [[? H] | [? H]]]; discriminate H.
Qed.

End UseServiceQueryProps.

(** ** Mutation hook *)

Module UseServiceProps.
Import UseService.

Example created_then_reset :
  after [Mutate (JStr "p"); Resolved (JStr "deck"); Reset] getDefaultState
  = mkResult false false None JUndefined.
Proof. reflexivity. Qed.

Lemma reducer_reads (st : MutationState) (a : Action) :
  reads st.(status) (useService st) -> enabled st a = true ->
  reads (reducer st a).(status) (useService (reducer st a)).
Proof.
  destruct st as [[] d err], a as [p | r | e |]; simpl;
    intros H He; try discriminate; try reflexivity;
    unfold useService, isPending, isSuccess in *; simpl in *.
  - inversion H; subst. by repeat split.
  - by repeat split.
Qed.

Lemma run_reads (actions : list Action) (st : MutationState) :
  reads st.(status) (useService st) -> accepts st actions = true ->
  reads (fold_left reducer actions st).(status) (after actions st).
Proof.
  revert st. induction actions as [| a rest IH]; intros st H Ha; [done |].
  simpl in *. apply andb_prop in Ha as [He Ha].
  apply IH; [| done]. by apply reducer_reads.
Qed.

(** C7. The projection of the mutation hook follows idle, pending, then
    success or error: a fresh instance reads not loading, not loaded, no
    error; once [fetch] is called it reads loading; once [fetch] has
    resolved it reads not loading, loaded, no error, with the result; once
    it has rejected it reads not loading, not loaded, the error; [reset]
    after either returns to idle; a new [fetch] from a terminal state goes
    back through pending.  This holds whatever state the instance was in
    when [fetch] was called, and after every sequence of actions along the
    edges of the machine the projection reads what its state allows. *)
Theorem mutation_hook_state_machine (st : MutationState) (params d : JsVal)
  (e : JsError) (actions : list Action) :
  useService getDefaultState = mkResult false false None JUndefined
  /\ after [Mutate params] st = mkResult true false None JUndefined
  /\ after [Mutate params; Resolved d] st = mkResult false true None d
  /\ after [Mutate params; Rejected e] st
     = mkResult false false (Some e) JUndefined
  /\ after [Mutate params; Resolved d; Reset] st
     = mkResult false false None JUndefined
  /\ after [Mutate params; Rejected e; Reset] st
     = mkResult false false None JUndefined
  /\ after [Mutate params; Resolved d; Mutate params] st
     = mkResult true false None JUndefined
  /\ after [Mutate params; Rejected e; Mutate params] st
     = mkResult true false None JUndefined
  /\ (accepts getDefaultState actions = true ->
      reads (fold_left reducer actions getDefaultState).(status)
        (after actions getDefaultState)).
Proof.
  do 8 (split; [reflexivity |]).
  intros Ha. by apply run_reads.
Qed.

Lemma mutation_hook_state_machine_witness :
  let actions := [Mutate (JStr "a"); Rejected (new_Error "HTTP 500: down");
                  Mutate (JStr "a"); Resolved (JStr "deck")] in
  reads success (after actions getDefaultState).
Proof.
  intros actions.
  exact (proj2 (proj2 (proj2 (proj2 (proj2 (proj2 (proj2 (proj2
           (mutation_hook_state_machine getDefaultState JNull JNull
              (new_Error "") actions)))))))) eq_refl).
Defined.

End UseServiceProps.

(** ** Notifications *)

Module NotificationsProps.
Import Notifications.

Lemma elem_of_without (i : string) (l : list NotificationData)
  (n : NotificationData) :
  n ∈ without i l <-> n ∈ l /\ n.(id) ≠ i.
Proof. unfold without. rewrite list_elem_of_filter. tauto. Qed.

Lemma elem_of_unmount (i : string) (ts : list Timer) (tm : Timer) :
  tm ∈ unmount i ts <-> tm ∈ ts /\ tm.(timer_id) ≠ i.
Proof. unfold unmount. rewrite list_elem_of_filter. tauto. Qed.

Lemma elem_of_due (t : Z) (ts : list Timer) (tm : Timer) :
  tm ∈ due t ts <-> tm ∈ ts /\ tm.(fires_at) <= t.
Proof. unfold due. rewrite list_elem_of_filter. tauto. Qed.

(** Removing an identifier that is not there changes nothing. *)
Lemma without_fresh (i : string) (l : list NotificationData) :
  (forall n, n ∈ l -> n.(id) ≠ i) -> without i l = l.
Proof.
  intros Hf. induction l as [| n l IH]; [done |].
  unfold without in *. rewrite filter_cons.
  destruct (decide (n.(id) ≠ i)) as [_ | Hn].
  - f_equal. apply IH. intros m Hm. apply Hf. by apply elem_of_cons; right.
  - exfalso. apply Hn, Hf. by apply elem_of_cons; left.
Qed.

Lemma unmount_fresh (i : string) (ts : list Timer) :
  (forall tm, tm ∈ ts -> tm.(timer_id) ≠ i) -> unmount i ts = ts.
Proof.
  intros Hf. induction ts as [| tm ts IH]; [done |].
  unfold unmount in *. rewrite filter_cons.
  destruct (decide (tm.(timer_id) ≠ i)) as [_ | Hn].
  - f_equal. apply IH. intros m Hm. apply Hf. by apply elem_of_cons; right.
  - exfalso. apply Hn, Hf. by apply elem_of_cons; left.
Qed.

(** What is left after a batch of timers has fired. *)
Lemma fired_notifications (tms : list Timer) (st : State)
  (n : NotificationData) :
  n ∈ (fold_left (fun s tm => fire tm s) tms st).(notifications)
  <-> n ∈ st.(notifications)
      /\ (forall tm, tm ∈ tms -> tm.(timer_id) ≠ n.(id)).
Proof.
  revert st. induction tms as [| tm tms IH]; intros st; simpl.
  - split; [intros H; split; [done |] | tauto].
    intros tm Htm. by apply elem_of_nil in Htm.
  - rewrite IH.
    change (fire tm st).(notifications)
      with (without tm.(timer_id) st.(notifications)).
    rewrite elem_of_without. split.
    + intros [[Hin Hne] Hrest]. split; [done |].
      intros tm' [-> | Htm']%elem_of_cons; [congruence | by apply Hrest].
    + intros [Hin Hall]. split; [split; [done |] |].
      * intros Heq. apply (Hall tm); [by apply elem_of_cons; left | done].
      * intros tm' Htm'. apply Hall. by apply elem_of_cons; right.
Qed.

Lemma fired_timers (tms : list Timer) (st : State) (t : Timer) :
  t ∈ (fold_left (fun s tm => fire tm s) tms st).(timers)
  <-> t ∈ st.(timers)
      /\ (forall tm, tm ∈ tms -> tm.(timer_id) ≠ t.(timer_id)).
Proof.
  revert st. induction tms as [| tm tms IH]; intros st; simpl.
  - split; [intros H; split; [done |] | tauto].
    intros tm Htm. by apply elem_of_nil in Htm.
  - rewrite IH.
    change (fire tm st).(timers) with (unmount tm.(timer_id) st.(timers)).
    rewrite elem_of_unmount. split.
    + intros [[Hin Hne] Hrest]. split; [done |].
      intros tm' [-> | Htm']%elem_of_cons; [congruence | by apply Hrest].
    + intros [Hin Hall]. split; [split; [done |] |].
      * intros Heq. apply (Hall tm); [by apply elem_of_cons; left | done].
      * intros tm' Htm'. apply Hall. by apply elem_of_cons; right.
Qed.

(** After the clock has advanced, the notifications shown are those none
    of whose timers was due. *)
Lemma advance_notifications (dt : Z) (st : State) (n : NotificationData) :
  n ∈ (advance dt st).(notifications)
  <-> n ∈ st.(notifications)
      /\ (forall tm, tm ∈ st.(timers) -> tm.(fires_at) <= st.(now) + dt ->
                     tm.(timer_id) ≠ n.(id)).
Proof.
  unfold advance. simpl. rewrite fired_notifications.
  split; intros [Hin Hall]; (split; [done |]).
  - intros tm Htm Hdue. apply Hall. by apply elem_of_due.
  - intros tm [Htm Hdue]%elem_of_due. by apply Hall.
Qed.

Lemma advance_timers (dt : Z) (st : State) (t : Timer) :
  t ∈ (advance dt st).(timers) -> t ∈ st.(timers).
Proof. unfold advance. simpl. rewrite fired_timers. tauto. Qed.

(** The state after an insertion: the record is appended and, when the
    duration is positive, so is its timer. *)
Lemma showNotification_state (message : string) (ty : option NotificationType)
  (dur : option Z) (random : string) (st : State) :
  let i := fresh_id st.(now) random in
  let d := default 3000 dur in
  showNotification message ty dur random st
  = mkState
      (st.(notifications)
       ++ [mkNotification i (default info ty) message (Some d)])
      (st.(timers) ++ (if 0 <? d then [mkTimer i (st.(now) + d)] else []))
      st.(now).
Proof. reflexivity. Qed.

(** Closing right after the insertion restores the state: the record and
    its timer are gone. *)
Lemma close_after_show (message : string) (ty : option NotificationType)
  (dur : option Z) (random : string) (st : State) :
  fresh (fresh_id st.(now) random) st ->
  removeNotification (fresh_id st.(now) random)
    (showNotification message ty dur random st) = st.
Proof.
  intros [Hn Ht]. rewrite showNotification_state.
  unfold removeNotification. simpl.
  unfold without, unmount. rewrite !filter_app.
  fold (without (fresh_id st.(now) random) st.(notifications)).
  fold (unmount (fresh_id st.(now) random) st.(timers)).
  rewrite without_fresh, unmount_fresh by done.
  assert (Hl : filter (fun n : NotificationData =>
                         n.(id) ≠ fresh_id st.(now) random)
                 [mkNotification (fresh_id st.(now) random) (default info ty)
                    message (Some (default 3000 dur))] = []).
  { rewrite filter_cons. simpl. by destruct (decide _). }
  assert (Hr : filter (fun tm : Timer =>
                         tm.(timer_id) ≠ fresh_id st.(now) random)
                 (if 0 <? default 3000 dur
                  then [mkTimer (fresh_id st.(now) random)
                          (st.(now) + default 3000 dur)]
                  else []) = []).
  { destruct (0 <? default 3000 dur); [| done].
    rewrite filter_cons. simpl. by destruct (decide _). }
  rewrite Hl, Hr, !app_nil_r. by destruct st.
Qed.

(** A notification with a positive duration [d] stays for less than [d]
    milliseconds, is gone from [d] on, and its timer removes nothing
    else. *)
Lemma auto_dismiss (message : string) (ty : option NotificationType)
  (dur : option Z) (random : string) (st : State) :
  let i := fresh_id st.(now) random in
  let d := default 3000 dur in
  let n := mkNotification i (default info ty) message (Some d) in
  let st1 := showNotification message ty dur random st in
  0 < d -> fresh i st ->
  (forall dt, 0 <= dt < d -> n ∈ (advance dt st1).(notifications))
  /\ (forall dt, d <= dt ->
       forall n', n' ∈ (advance dt st1).(notifications) -> n'.(id) ≠ i)
  /\ (forall dt n', n'.(id) ≠ i ->
       n' ∈ (advance dt st1).(notifications)
       <-> n' ∈ (advance dt st).(notifications)).
Proof.
  intros i d n st1 Hd [Hfn Hft].
  assert (Hst1 : st1 = mkState (st.(notifications) ++ [n])
                         (st.(timers) ++ [mkTimer i (st.(now) + d)])
                         st.(now)).
  { unfold st1. rewrite showNotification_state. fold i d n.
    by rewrite (proj2 (Z.ltb_lt 0 d) Hd). }
  split; [| split].
  - intros dt Hdt. rewrite advance_notifications, Hst1. simpl. split.
    + apply elem_of_app. right. by apply list_elem_of_singleton.
    + intros tm [Htm | Htm]%elem_of_app Hdue.
      * by apply Hft.
      * apply list_elem_of_singleton in Htm. subst tm. simpl in Hdue. lia.
  - intros dt Hdt n' Hn'. rewrite advance_notifications, Hst1 in Hn'.
    simpl in Hn'. destruct Hn' as [_ Hall].
    intros Heq. apply (Hall (mkTimer i (st.(now) + d))); simpl; [| lia | done].
    apply elem_of_app. right. by apply list_elem_of_singleton.
  - intros dt n' Hne. rewrite !advance_notifications, Hst1. simpl. split.
    + intros [[Hin | Hin]%elem_of_app Hall].
      * split; [done |]. intros tm Htm Hdue. apply Hall; [| done].
        apply elem_of_app. by left.
      * apply list_elem_of_singleton in Hin. subst n'. by simpl in Hne.
    + intros [Hin Hall]. split; [apply elem_of_app; by left |].
      intros tm [Htm | Htm]%elem_of_app Hdue.
      * by apply Hall.
      * apply list_elem_of_singleton in Htm. subst tm. simpl. congruence.
Qed.

(** An event that does not touch the identifier keeps a persistent
    notification persistent. *)
Lemma step_persistent (n : NotificationData) (st : State) (ev : Event) :
  persistent n st -> touches n.(id) st ev = false ->
  persistent n (step st ev).
Proof.
  intros [Hin Htm] Hev.
  destruct ev as [message ty dur random | j | dt]; simpl in *.
  - apply bool_decide_eq_false in Hev.
    rewrite showNotification_state. split; simpl.
    + apply elem_of_app. by left.
    + intros tm [H | H]%elem_of_app; [by apply Htm |].
      destruct (0 <? default 3000 dur); [| by apply elem_of_nil in H].
      apply list_elem_of_singleton in H. by subst tm.
  - apply bool_decide_eq_false in Hev. split; simpl.
    + apply elem_of_without. split; [done | congruence].
    + intros tm [H _]%elem_of_unmount. by apply Htm.
  - split.
    + apply advance_notifications. split; [done |].
      intros tm H _. by apply Htm.
    + intros tm H%advance_timers. by apply Htm.
Qed.

Lemma run_persistent (n : NotificationData) (evs : list Event) (st : State) :
  persistent n st -> untouched n.(id) st evs = true ->
  persistent n (run st evs).
Proof.
  revert st. induction evs as [| ev evs IH]; intros st Hp Hu; [done |].
  simpl in *. apply andb_prop in Hu as [Hev Hu].
  apply negb_true_iff in Hev. apply IH; [| done].
  by apply step_persistent.
Qed.

Lemma fresh_initial (i : string) : fresh i initial.
Proof. split; intros x H; by apply elem_of_nil in H. Qed.

Example ok_lifecycle :
  ok_shown.(notifications) = [mkNotification ok_id success "ok" (Some 100)]
  /\ ok_shown.(timers) = [mkTimer ok_id 100]
  /\ (advance 99 ok_shown).(notifications) = ok_shown.(notifications)
  /\ (advance 100 ok_shown).(notifications) = []
  /\ (advance 100 (removeNotification ok_id ok_shown)).(notifications) = []
  /\ (removeNotification ok_id ok_shown).(timers) = [].
Proof. repeat split. Qed.

(** C6. An insertion with a positive duration sets a timer for its
    identifier, and a timer that fires removes the records of its
    identifier and no other.  Closing removes the records of the identifier
    at once and clears its timers.  When the identifier is fresh: the
    notification with positive duration [d] is shown for less than [d]
    milliseconds and gone from [d] on, the other notifications being
    unaffected; a notification with zero or negative duration sets no
    timer and stays through every run that neither closes it nor draws
    its identifier again; closing it restores the state before the
    insertion, so the clock reaching the deadline removes nothing more. *)
Theorem notification_lifecycle (message : string)
  (ty : option NotificationType) (dur : option Z) (random : string)
  (st : State) :
  let i := fresh_id st.(now) random in
  let d := default 3000 dur in
  let n := mkNotification i (default info ty) message (Some d) in
  let st1 := showNotification message ty dur random st in
  st1.(notifications) = st.(notifications) ++ [n]
  /\ (0 < d -> mkTimer i (st.(now) + d) ∈ st1.(timers))
  /\ (forall tm s n',
        n' ∈ (fire tm s).(notifications)
        <-> n' ∈ s.(notifications) /\ n'.(id) ≠ tm.(timer_id))
  /\ (forall n', n' ∈ (removeNotification i st1).(notifications) ->
                  n'.(id) ≠ i)
  /\ (forall tm, tm ∈ (removeNotification i st1).(timers) ->
                  tm.(timer_id) ≠ i)
  /\ (fresh i st ->
       (0 < d ->
        (forall dt, 0 <= dt < d -> n ∈ (advance dt st1).(notifications))
        /\ (forall dt, d <= dt ->
             forall n', n' ∈ (advance dt st1).(notifications) ->
                        n'.(id) ≠ i)
        /\ (forall dt n', n'.(id) ≠ i ->
             n' ∈ (advance dt st1).(notifications)
             <-> n' ∈ (advance dt st).(notifications)))
       /\ (d <= 0 ->
            st1.(timers) = st.(timers)
            /\ forall evs, untouched i st1 evs = true ->
                           n ∈ (run st1 evs).(notifications))
       /\ removeNotification i st1 = st
       /\ (forall dt, advance dt (removeNotification i st1) = advance dt st)).
Proof.
  intros i d n st1.
  assert (Hst1 : st1 = mkState (st.(notifications) ++ [n])
                         (st.(timers)
                          ++ (if 0 <? d then [mkTimer i (st.(now) + d)]
                              else []))
                         st.(now)) by reflexivity.
  split; [by rewrite Hst1 |]. split.
  { intros Hd. rewrite Hst1. simpl. rewrite (proj2 (Z.ltb_lt 0 d) Hd).
    apply elem_of_app. right. by apply list_elem_of_singleton. }
  split.
  { intros tm s n'. unfold fire, removeNotification. simpl.
    apply elem_of_without. }
  split.
  { intros n' Hn'. simpl in Hn'. by apply elem_of_without in Hn' as [_ ?]. }
  split.
  { intros tm Htm. simpl in Htm. by apply elem_of_unmount in Htm as [_ ?]. }
  intros Hfresh. split; [| split; [| split]].
  - intros Hd. by apply auto_dismiss.
  - intros Hd.
    assert (Hts : st1.(timers) = st.(timers)).
    { rewrite Hst1. simpl. rewrite (proj2 (Z.ltb_ge 0 d) Hd).
      by rewrite app_nil_r. }
    split; [done |]. intros evs Hu.
    apply (run_persistent n evs st1); [| done].
    split.
    + rewrite Hst1. simpl. apply elem_of_app. right.
      by apply list_elem_of_singleton.
    + rewrite Hts. apply Hfresh.
  - by apply close_after_show.
  - intros dt. unfold st1, i. by rewrite close_after_show.
Qed.

Lemma notification_lifecycle_witness :
  mkTimer ok_id 100 ∈ ok_shown.(timers)
  /\ removeNotification ok_id ok_shown = initial.
Proof.
  pose proof (notification_lifecycle "ok" (Some success) (Some 100) "0.42"
                initial) as (_ & Htimer & _ & _ & _ & Hfresh).
  split.
  - apply Htimer. simpl. lia.
  - exact (proj1 (proj2 (proj2 (Hfresh (fresh_initial _))))).
Defined.

Example info_default :
  (showNotification "saved" None None "0.5" initial).(notifications)
  = [mkNotification (fresh_id 0 "0.5") info "saved" (Some 3000)].
Proof. reflexivity. Qed.

(** C10. Called without type and duration, [showNotification] inserts a
    record of type [info] with duration 3000; each wrapper called without
    a duration inserts a record of its own type with duration 3000 and sets
    its timer 3000 milliseconds ahead, so that, the identifier being
    fresh, the record is shown for less than 3000 milliseconds and gone
    from 3000 on. *)
Theorem notification_defaults (message random : string) (st : State) :
  let i := fresh_id st.(now) random in
  let shown (ty : NotificationType) :=
    mkState (st.(notifications) ++ [mkNotification i ty message (Some 3000)])
      (st.(timers) ++ [mkTimer i (st.(now) + 3000)]) st.(now) in
  showNotification message None None random st = shown info
  /\ (forall ty, showNotification message (Some ty) None random st = shown ty)
  /\ (forall d, showNotification message None (Some d) random st
                = showNotification message (Some info) (Some d) random st)
  /\ show_success message None random st = shown success
  /\ show_error message None random st = shown error
  /\ show_info message None random st = shown info
  /\ show_warning message None random st = shown warning
  /\ (fresh i st ->
       forall ty,
         (forall dt, 0 <= dt < 3000 ->
            mkNotification i ty message (Some 3000)
            ∈ (advance dt (shown ty)).(notifications))
         /\ (forall dt, 3000 <= dt ->
              forall n', n' ∈ (advance dt (shown ty)).(notifications) ->
                         n'.(id) ≠ i)).
Proof.
  intros i shown. split; [reflexivity |].
  split; [intros ty; reflexivity |].
  split; [intros d; reflexivity |].
  do 4 (split; [reflexivity |]).
  intros Hfresh ty.
  destruct (auto_dismiss message (Some ty) None random st) as (H1 & H2 & _);
    [simpl; lia | exact Hfresh |].
  split; [exact H1 | exact H2].
Qed.

Lemma notification_defaults_witness :
  (advance 2999 (show_warning "careful" None "0.7" initial)).(notifications)
  = [mkNotification (fresh_id 0 "0.7") warning "careful" (Some 3000)]
  /\ forall n',
       n' ∈ (advance 3000
               (show_warning "careful" None "0.7" initial)).(notifications) ->
       n'.(id) ≠ fresh_id 0 "0.7".
Proof.
  split; [reflexivity |].
  pose proof (notification_defaults "careful" "0.7" initial)
    as (_ & _ & _ & _ & _ & _ & _ & Hfresh).
  destruct (Hfresh (fresh_initial _) warning) as [_ Hgone].
  apply (Hgone 3000). lia.
Defined.

End NotificationsProps.

(** * Further properties *)

(** ** What a submission collects *)

Module FormBuilderExtra.
Import FormBuilder FormBuilderValues.

(** One round of the loop. *)
Lemma collect_step (field : FieldConfig) (rest : list FieldConfig)
  (formData : FormData) (values : gmap string FormValue) :
  collect (field :: rest) formData values
  = if rejects formData field then Threw (required_error field)
    else collect rest formData
           (assign field.(name) (field_value formData field) values).
Proof.
  simpl. unfold rejects, field_value, required_error.
  destruct (String.eqb field.(type) "checkbox"); [reflexivity |].
  destruct (String.eqb field.(type) "number"); [reflexivity |].
  destruct (entry_truthy (FormData_get formData field.(name))
            && is_string (FormData_get formData field.(name)));
    [reflexivity |].
  by destruct field.(required).
Qed.

Lemma collect_app (pre post : list FieldConfig) (formData : FormData)
  (values : gmap string FormValue) :
  collect (pre ++ post) formData values
  = (vs <- collect pre formData values ;; collect post formData vs).
Proof.
  revert values. induction pre as [| f pre IH]; intros values; [done |].
  rewrite <- app_comm_cons, !collect_step.
  destruct (rejects formData f); [done | apply IH].
Qed.

Lemma handleSubmit_started (fields : list FieldConfig) (formData : FormData)
  (values : gmap string FormValue) :
  handleSubmit fields formData = TransitionStarted values
  <-> collect fields formData ∅ = Returned values.
Proof.
  unfold handleSubmit. destruct (collect fields formData ∅); split;
    intros H; by inversion H.
Qed.

Lemma collect_accepts (fields : list FieldConfig) (formData : FormData)
  (vs : gmap string FormValue) :
  (exists values, collect fields formData vs = Returned values)
  <-> Forall (fun f => rejects formData f = false) fields.
Proof.
  revert vs. induction fields as [| f rest IH]; intros vs.
  - split; [constructor | by exists vs].
  - rewrite collect_step, Forall_cons.
    destruct (rejects formData f) eqn:Hr.
    + split; [by intros [? ?] | by intros [? _]].
    + rewrite IH. tauto.
Qed.

Lemma collect_rejected (fields : list FieldConfig) (formData : FormData)
  (vs : gmap string FormValue) :
  (exists t, collect fields formData vs = Threw t)
  <-> Exists (fun f => rejects formData f = true) fields.
Proof.
  revert vs. induction fields as [| f rest IH]; intros vs.
  - split; [by intros [? ?] | intros H; inversion H].
  - rewrite collect_step, Exists_cons.
    destruct (rejects formData f) eqn:Hr.
    + split; [by left | eauto].
    + rewrite IH. split; [by right | by intros [? | ?]].
Qed.

(** X2. A submission reaches the handler exactly when no field of the form
    is rejected, that is when every required field other than a checkbox
    or a number has a non-empty string; otherwise nothing is handed to the
    handler. *)
Theorem handler_called_iff_no_field_rejected (fields : list FieldConfig)
  (formData : FormData) :
  ((exists values, handleSubmit fields formData = TransitionStarted values)
   <-> Forall (fun f => rejects formData f = false) fields)
  /\ (handler_calls (handleSubmit fields formData) = []
      <-> Exists (fun f => rejects formData f = true) fields).
Proof.
  assert (H1 : (exists values,
                  handleSubmit fields formData = TransitionStarted values)
               <-> Forall (fun f => rejects formData f = false) fields).
  { rewrite <- (collect_accepts fields formData ∅).
    split; intros [values H]; exists values; by apply handleSubmit_started. }
  split; [exact H1 |].
  unfold handleSubmit.
  destruct (collect_rejected fields formData ∅) as [Ht He].
  destruct (collect fields formData ∅) as [values | t] eqn:Hc; simpl.
  - split; [discriminate |]. intros Hex. destruct (He Hex) as [t Ht'].
    discriminate Ht'.
  - split; [intros _; apply Ht; eauto | reflexivity].
Qed.

(** X3. The error of a rejected submission names the first rejected field
    in the order of the configuration, by its label, or by its name when
    the label is empty; fields after it are not looked at. *)
Theorem first_rejected_field_is_reported (pre post : list FieldConfig)
  (field : FieldConfig) (formData : FormData) :
  Forall (fun f => rejects formData f = false) pre ->
  rejects formData field = true ->
  handleSubmit (pre ++ field :: post) formData
  = ValidationThrew
      (ThrownError
         (new_Error
            ((if String.eqb field.(label) "" then field.(name)
              else field.(label)) +:+ " is required"))).
Proof.
  intros Hpre Hr. unfold handleSubmit. rewrite collect_app.
  apply (collect_accepts pre formData ∅) in Hpre as [vs Hvs].
  rewrite Hvs. cbn [bind]. rewrite collect_step, Hr. reflexivity.
Qed.

Lemma first_rejected_field_is_reported_witness :
  handleSubmit contactFormFields
    [("fullName", EntryString "Ada"); ("email", EntryString "");
     ("topic", EntryString "")]%string
  = ValidationThrew (ThrownError (new_Error "Email Address is required")).
Proof.
  apply (first_rejected_field_is_reported
           [mkField "text" "fullName" "Full Name" true false]
           [mkField "select" "topic" "Topic" true false;
            mkField "textarea" "message" "Message" true false]
           (mkField "email" "email" "Email Address" true false)).
  - repeat constructor.
  - reflexivity.
Defined.

Lemma assign_insert (k : string) (v : FormValue)
  (vs : gmap string FormValue) :
  k <> "__proto__"%string -> assign k v vs = <[k := v]> vs.
Proof.
  intros Hk. unfold assign. by destruct (String.eqb_spec k "__proto__").
Qed.

Lemma lookup_assign_eq (k : string) (v : FormValue)
  (vs : gmap string FormValue) :
  k <> "__proto__"%string -> assign k v vs !! k = Some v.
Proof.
  intros Hk. unfold assign. destruct (String.eqb_spec k "__proto__"); [done |].
  apply lookup_insert_eq.
Qed.

Lemma lookup_assign_ne (k k' : string) (v : FormValue)
  (vs : gmap string FormValue) :
  k <> k' -> assign k v vs !! k' = vs !! k'.
Proof.
  intros Hk. unfold assign. destruct (String.eqb k "__proto__"); [done |].
  by apply lookup_insert_ne.
Qed.

Lemma lookup_assign_proto (k : string) (v : FormValue)
  (vs : gmap string FormValue) :
  assign k v vs !! "__proto__"%string = vs !! "__proto__"%string.
Proof.
  unfold assign. destruct (String.eqb_spec k "__proto__") as [_ | Hk]; [done |].
  by apply lookup_insert_ne.
Qed.

Lemma collect_keys (fields : list FieldConfig) (formData : FormData)
  (vs values : gmap string FormValue) (k : string) :
  collect fields formData vs = Returned values ->
  is_Some (values !! k)
  <-> (k ∈ name <$> fields /\ k <> "__proto__"%string) \/ is_Some (vs !! k).
Proof.
  revert vs. induction fields as [| f rest IH]; intros vs H.
  - inversion H; subst. rewrite fmap_nil, elem_of_nil. tauto.
  - rewrite collect_step in H. destruct (rejects formData f); [done |].
    rewrite (IH _ H), fmap_cons, elem_of_cons.
    destruct (decide (f.(name) = k)) as [<- | Hne].
    + destruct (decide (f.(name) = "__proto__"%string)) as [Hp | Hp].
      * rewrite Hp, lookup_assign_proto. tauto.
      * rewrite lookup_assign_eq by done. split; [| eauto].
        intros _. left. by split; [left |].
    + rewrite lookup_assign_ne by done.
      split; [intros [[? ?] | ?] | intros [[[? | ?] ?] | ?]]; try tauto.
      by destruct Hne.
Qed.

Lemma collect_other_keys (fields : list FieldConfig) (formData : FormData)
  (vs values : gmap string FormValue) (k : string) :
  collect fields formData vs = Returned values ->
  k ∉ name <$> fields -> values !! k = vs !! k.
Proof.
  revert vs. induction fields as [| f rest IH]; intros vs H Hk.
  - by inversion H.
  - rewrite collect_step in H. destruct (rejects formData f); [done |].
    rewrite fmap_cons in Hk. apply not_elem_of_cons in Hk as [Hne Hk].
    rewrite (IH _ H Hk). by rewrite lookup_assign_ne.
Qed.

(** X4. The own keys of the object handed to the handler are exactly the
    names of the configured fields, the name [__proto__] apart, which
    makes no own key: a field that was left empty is present with the
    value [undefined], and no other key of the submitted data gets
    through. *)
Theorem handler_receives_exactly_the_field_names (fields : list FieldConfig)
  (formData : FormData) (values : gmap string FormValue) :
  handleSubmit fields formData = TransitionStarted values ->
  dom values = list_to_set (name <$> fields) ∖ {[ "__proto__"%string ]}
  /\ (forall k, is_Some (values !! k)
                <-> k ∈ name <$> fields /\ k <> "__proto__"%string).
Proof.
  intros H%handleSubmit_started.
  assert (Hk : forall k, is_Some (values !! k)
                         <-> k ∈ name <$> fields /\ k <> "__proto__"%string).
  { intros k. rewrite (collect_keys _ _ _ _ k H), lookup_empty.
    split; [intros [? | [? ?]]; done | by left]. }
  split; [| exact Hk].
  apply set_eq. intros k.
  rewrite elem_of_dom, Hk, elem_of_difference, elem_of_list_to_set,
    elem_of_singleton.
  reflexivity.
Qed.

Lemma handler_receives_exactly_the_field_names_witness :
  dom ({[ "isPublic"%string := VBoolean false ]} : gmap string FormValue)
  = list_to_set
      (name <$> [mkField "checkbox" "isPublic" "Public" false false;
                 mkField "text" "__proto__" "Prototype" false false])
    ∖ {[ "__proto__"%string ]}.
Proof.
  exact (proj1 (handler_receives_exactly_the_field_names
                  [mkField "checkbox" "isPublic" "Public" false false;
                   mkField "text" "__proto__" "Prototype" false false]
                  [("note", EntryString "ignored");
                   ("__proto__", EntryString "x")]%string
                  {[ "isPublic"%string := VBoolean false ]} eq_refl)).
Defined.

(** X5. In the object handed to the handler, the key of a field whose
    name is not [__proto__] holds the value coerced by the branch of that
    field's type; when two fields share a name, the later one wins. *)
Theorem last_field_of_a_name_wins (pre post : list FieldConfig)
  (field : FieldConfig) (formData : FormData)
  (values : gmap string FormValue) :
  handleSubmit (pre ++ field :: post) formData = TransitionStarted values ->
  field.(name) ∉ name <$> post ->
  field.(name) <> "__proto__"%string ->
  values !! field.(name) = Some (field_value formData field).
Proof.
  intros H%handleSubmit_started Hpost Hproto. rewrite collect_app in H.
  destruct (collect pre formData ∅) as [vs | t]; [| done].
  cbn [bind] in H. rewrite collect_step in H.
  destruct (rejects formData field); [done |].
  rewrite (collect_other_keys _ _ _ _ _ H Hpost).
  by apply lookup_assign_eq.
Qed.

Lemma last_field_of_a_name_wins_witness :
  ({[ "n"%string := VNumber (Finite 7) ]} : gmap string FormValue)
    !! "n"%string
  = Some (VNumber (Finite 7)).
Proof.
  apply (last_field_of_a_name_wins
           [mkField "text" "n" "First" false false] []
           (mkField "number" "n" "Second" false false)
           [("n", EntryString "7")]%string
           {[ "n"%string := VNumber (Finite 7) ]}).
  - reflexivity.
  - apply not_elem_of_nil.
  - discriminate.
Defined.

Lemma field_value_clean (formData : FormData) (field : FieldConfig) :
  field_value formData field ≠ VString ""
  /\ field_value formData field ≠ VNumber NaN.
Proof.
  unfold field_value.
  destruct (String.eqb field.(type) "checkbox").
  { destruct (FormData_get formData field.(name)) as [[s | f] |]; simpl;
      split; discriminate. }
  destruct (String.eqb field.(type) "number").
  { rewrite FormBuilderProps.coerce_number_spec.
    destruct (FormData_get formData field.(name)) as [[s | f] |]; simpl;
      try (split; discriminate).
    destruct (String.eqb s ""); [split; discriminate |].
    destruct (StringToNumber s); split; discriminate. }
  destruct (FormData_get formData field.(name)) as [[s | f] |]; simpl;
    try (split; discriminate).
  destruct (String.eqb_spec s ""); simpl; split; try discriminate.
  intros H. inversion H. contradiction.
Qed.

Lemma collect_clean (fields : list FieldConfig) (formData : FormData)
  (vs values : gmap string FormValue) :
  (forall k v, vs !! k = Some v -> v ≠ VString "" /\ v ≠ VNumber NaN) ->
  collect fields formData vs = Returned values ->
  forall k v, values !! k = Some v -> v ≠ VString "" /\ v ≠ VNumber NaN.
Proof.
  revert vs. induction fields as [| f rest IH]; intros vs Hvs Hc.
  - by inversion Hc; subst.
  - rewrite collect_step in Hc. destruct (rejects formData f); [done |].
    apply (IH (assign f.(name) (field_value formData f) vs)); [| done].
    intros k v Hl. destruct (decide (f.(name) = k)) as [<- | Hne].
    + destruct (decide (f.(name) = "__proto__"%string)) as [Hp | Hp].
      * rewrite Hp, lookup_assign_proto in Hl. by apply (Hvs "__proto__"%string).
      * rewrite lookup_assign_eq in Hl by done. inversion Hl.
        apply field_value_clean.
    + rewrite lookup_assign_ne in Hl by done. by apply (Hvs k).
Qed.

(** X6. No value handed to the handler is the empty string or NaN: an
    empty text entry and an unparsable number both arrive as
    [undefined]. *)
Theorem handler_never_sees_empty_string_or_NaN (fields : list FieldConfig)
  (formData : FormData) (values : gmap string FormValue) (k : string)
  (v : FormValue) :
  handleSubmit fields formData = TransitionStarted values ->
  values !! k = Some v ->
  v ≠ VString "" /\ v ≠ VNumber NaN.
Proof.
  intros H%handleSubmit_started. apply (collect_clean fields formData ∅); [| done].
  intros k' v' Hl. by rewrite lookup_empty in Hl.
Qed.

Lemma handler_never_sees_empty_string_or_NaN_witness :
  VUndefined ≠ VString "" /\ VUndefined ≠ VNumber NaN.
Proof.
  apply (handler_never_sees_empty_string_or_NaN
           [mkField "number" "points" "Points" false false]
           [("points", EntryString "many")]%string
           {[ "points"%string := VUndefined ]} "points" VUndefined);
    reflexivity.
Defined.



End FormBuilderExtra.

(** ** Request builder: what is sent and what comes back *)

Module RequestBuilderExtra.
Import BuilderChain.

Lemma stringify_truthy (v : JsVal) :
  truthy v = true -> is_Some (JSON_stringify v).
Proof. destruct v; simpl; intros H; try discriminate; eauto. Qed.

(** X8. A request carries a body exactly when its method is not GET and
    the body that was set is truthy: a body set on a GET is dropped, and
    so are the bodies [0], [false], the empty string and [null] on any
    method.  A body that is sent is the JSON text of the value. *)
Theorem body_sent_iff_truthy_and_not_GET (rb : RequestBuilder) :
  ((request_options rb).(init_body) = None
   <-> rb.(config).(method) = GET \/ truthy rb.(config).(body) = false)
  /\ (forall text, (request_options rb).(init_body) = Some text ->
                   JSON_stringify rb.(config).(body) = Some text).
Proof.
  unfold request_options. simpl.
  destruct (truthy rb.(config).(body)) eqn:Ht; simpl.
  - destruct (decide (rb.(config).(method) = GET)) as [Hm | Hm].
    + rewrite bool_decide_eq_true_2 by done. simpl.
      split; [split; auto | discriminate].
    + rewrite bool_decide_eq_false_2 by done. simpl.
      destruct (stringify_truthy _ Ht) as [text Hs]. rewrite Hs.
      split; [| done]. split; [discriminate | intros [? | ?]; done].
  - split; [split; auto | discriminate].
Qed.

Lemma chain_snoc (rb : RequestBuilder) (ops : list BuilderOp) (op : BuilderOp) :
  chain rb (ops ++ [op]) = apply_op (chain rb ops) op.
Proof. unfold chain. by rewrite fold_left_app. Qed.

Lemma apply_op_fixed (rb : RequestBuilder) (op : BuilderOp) :
  (apply_op rb op).(baseUrl) = rb.(baseUrl)
  /\ (apply_op rb op).(config).(endpoint) = rb.(config).(endpoint)
  /\ (apply_op rb op).(config).(method) = rb.(config).(method).
Proof. by destruct op. Qed.

Lemma chain_fixed (rb : RequestBuilder) (ops : list BuilderOp) :
  (chain rb ops).(baseUrl) = rb.(baseUrl)
  /\ (chain rb ops).(config).(endpoint) = rb.(config).(endpoint)
  /\ (chain rb ops).(config).(method) = rb.(config).(method).
Proof.
  induction ops as [| op ops IH] using rev_ind; [done |].
  rewrite chain_snoc.
  destruct (apply_op_fixed (chain rb ops) op) as (-> & -> & ->). exact IH.
Qed.

Lemma chain_header_kept (rb : RequestBuilder) (ops : list BuilderOp)
  (k : string) :
  is_Some (rb.(config).(headers) !! k) ->
  is_Some ((chain rb ops).(config).(headers) !! k).
Proof.
  intros Hk. induction ops as [| op ops IH] using rev_ind; [done |].
  rewrite chain_snoc. destruct op as [ps | b | hs]; simpl; try done.
  rewrite lookup_union. destruct (hs !! k) as [v |].
  - rewrite union_Some_l. by eexists.
  - by rewrite (left_id None _).
Qed.

Lemma chain_header_untouched (rb : RequestBuilder) (ops : list BuilderOp)
  (k : string) :
  forallb (fun op => negb (sets_header k op)) ops = true ->
  (chain rb ops).(config).(headers) !! k = rb.(config).(headers) !! k.
Proof.
  induction ops as [| op ops IH] using rev_ind; [done |].
  rewrite forallb_app. intros [Hops Hop]%andb_prop.
  rewrite chain_snoc. simpl in Hop. rewrite andb_true_r in Hop.
  apply negb_true_iff in Hop.
  destruct op as [ps | b | hs]; simpl; try by apply IH.
  simpl in Hop. apply bool_decide_eq_false in Hop.
  rewrite lookup_union_r; [by apply IH |].
  by apply eq_None_not_Some.
Qed.

(** X9. Whatever setters are chained after [prepareRequest], the request
    carries a Content-Type header; it is application/json unless a
    [setHeaders] names Content-Type, in which case the last one that does
    wins.  [setHeaders] merges: it never removes a header set before. *)
Theorem content_type_always_sent (base endpoint : string)
  (method : HttpMethod) (ops : list BuilderOp) :
  let rb := chain (prepareRequest base endpoint method) ops in
  (request_options rb).(init_headers) = Some rb.(config).(headers)
  /\ is_Some (rb.(config).(headers) !! "Content-Type"%string)
  /\ (forallb (fun op => negb (sets_header "Content-Type" op)) ops = true ->
      rb.(config).(headers) !! "Content-Type"%string
      = Some "application/json"%string)
  /\ (forall hs v more,
        hs !! "Content-Type"%string = Some v ->
        forallb (fun op => negb (sets_header "Content-Type" op)) more = true ->
        (chain rb (SetHeaders hs :: more)).(config).(headers)
          !! "Content-Type"%string = Some v)
  /\ (forall hs k,
        is_Some (rb.(config).(headers) !! k) ->
        is_Some ((setHeaders hs rb).(config).(headers) !! k)).
Proof.
  intros rb. split; [reflexivity |]. split; [| split; [| split]].
  - apply chain_header_kept. simpl. rewrite lookup_singleton_eq. by eexists.
  - intros Hops. unfold rb. rewrite chain_header_untouched by done.
    simpl. by rewrite lookup_singleton_eq.
  - intros hs v more Hv Hmore.
    change (chain rb (SetHeaders hs :: more))
      with (chain (setHeaders hs rb) more).
    rewrite chain_header_untouched by done. simpl.
    by rewrite lookup_union, Hv, union_Some_l.
  - intros hs k Hk. apply (chain_header_kept rb [SetHeaders hs] k Hk).
Qed.

(** X10. The URL of a request is the base URL, the endpoint and, once
    [setQueryParams] was called, a question mark and the encoded
    parameters of the last such call: a later [setQueryParams] replaces
    the earlier parameters instead of adding to them, [setBody] and
    [setHeaders] leave the URL alone, and the question mark is appended
    even for an empty parameter object. *)
Theorem url_uses_last_query_params (rb : RequestBuilder)
  (before after : list BuilderOp) (params : list (string * QueryValue)) :
  forallb (fun op => negb (is_query_op op)) after = true ->
  request_url (chain rb (before ++ SetQueryParams params :: after))
  = rb.(baseUrl) +:+ rb.(config).(endpoint) +:+ "?"
    +:+ URLSearchParams_toString params.
Proof.
  intros Hafter.
  assert (Hq : forall r ops,
             forallb (fun op => negb (is_query_op op)) ops = true ->
             (chain r ops).(config).(queryParams) = r.(config).(queryParams)).
  { intros r ops. induction ops as [| op ops IH] using rev_ind; [done |].
    rewrite forallb_app. intros [Hops Hop]%andb_prop.
    rewrite chain_snoc. destruct op; simpl in *; try discriminate;
      by apply IH. }
  unfold chain at 1. rewrite fold_left_app. simpl.
  fold (chain rb before).
  fold (chain (setQueryParams params (chain rb before)) after).
  unfold request_url.
  destruct (chain_fixed (setQueryParams params (chain rb before)) after)
    as (-> & -> & _).
  rewrite (Hq _ _ Hafter). simpl.
  destruct (chain_fixed rb before) as (-> & -> & _).
  by rewrite append_assoc.
Qed.

Lemma url_uses_last_query_params_witness :
  request_url
    (setBody (JStr "x")
       (setQueryParams []
          (setQueryParams [("page", QNumber 2)]%string
             (prepareRequest "http://api" "/v1/decks" GET))))
  = "http://api/v1/decks?"%string.
Proof.
  exact (url_uses_last_query_params
           (prepareRequest "http://api" "/v1/decks" GET)
           [SetQueryParams [("page", QNumber 2)]%string] [SetBody (JStr "x")]
           [] eq_refl).
Defined.

(** X11. Whatever the network does, [execRequest] only ever throws Error
    instances: an Error raised by [fetch] or by the parsing of the body is
    thrown as it is, and any other thrown value is replaced by the Error
    "An unexpected error occurred". *)
Theorem execRequest_throws_only_errors (fetch : Fetch) (rb : RequestBuilder) :
  (forall t, snd (execRequest fetch rb) = Threw t ->
             exists e, t = ThrownError e)
  /\ (forall e, fetch (request_url rb) (request_options rb)
                = Rejects (ThrownError e) ->
                snd (execRequest fetch rb) = Threw (ThrownError e))
  /\ (forall v, fetch (request_url rb) (request_options rb)
                = Rejects (ThrownValue v) ->
                snd (execRequest fetch rb)
                = Threw (ThrownError
                           (new_Error "An unexpected error occurred"))).
Proof.
  unfold execRequest. simpl. split; [| split].
  - intros t. destruct (handle_response _) as [a | [e | v]]; simpl;
      intros H; inversion H; eauto.
  - intros e ->. reflexivity.
  - intros v ->. reflexivity.
Qed.

(** X12. A response with a status from 200 to 299 never fails on its
    status: a 204 yields [undefined] without the body being parsed, any
    other yields what [json()] yields, and a body that does not parse is
    the only failure. *)
Theorem execRequest_success_payload (fetch : Fetch) (rb : RequestBuilder)
  (response : Response) :
  fetch (request_url rb) (request_options rb) = Resolves response ->
  ok response = true ->
  snd (execRequest fetch rb)
  = if (response.(Http.status) =? 204)%nat then Returned JUndefined
    else match response.(json) with
         | Returned data => Returned data
         | Threw t => rethrow t
         end.
Proof.
  intros Hf Hok. unfold execRequest. simpl. rewrite Hf. simpl. rewrite Hok.
  simpl. destruct (response.(Http.status) =? 204)%nat; [reflexivity |].
  by destruct response.(json).
Qed.

Lemma execRequest_success_payload_witness :
  snd (execRequest
         (fun _ _ =>
            Resolves (mkResponse 204 "No Content" ""
                        (Threw (ThrownError (mkError "SyntaxError" "end")))))
         (prepareRequest "" "/v1/decks/d1" DELETE))
  = Returned JUndefined.
Proof.
  exact (execRequest_success_payload
           (fun _ _ =>
              Resolves (mkResponse 204 "No Content" ""
                          (Threw (ThrownError (mkError "SyntaxError" "end")))))
           (prepareRequest "" "/v1/decks/d1" DELETE)
           (mkResponse 204 "No Content" ""
              (Threw (ThrownError (mkError "SyntaxError" "end"))))
           eq_refl eq_refl).
Defined.

End RequestBuilderExtra.

(** ** The query string *)

Module QueryStringExtra.
Import BuilderChain.

Lemma string_forall_app (p : ascii -> bool) (a b : string) :
  string_forall p (a +:+ b) = string_forall p a && string_forall p b.
Proof.
  induction a as [| x a IH]; [done |].
  change (string_forall p (String x (a +:+ b))
          = string_forall p (String x a) && string_forall p b).
  simpl. by rewrite IH, andb_assoc.
Qed.

Lemma count_char_app (c : ascii) (a b : string) :
  count_char c (a +:+ b) = (count_char c a + count_char c b)%nat.
Proof.
  induction a as [| x a IH]; [done |].
  change (count_char c (String x (a +:+ b))
          = (count_char c (String x a) + count_char c b)%nat).
  simpl. rewrite IH. lia.
Qed.

Lemma count_char_absent (p : ascii -> bool) (c : ascii) (s : string) :
  p c = false -> string_forall p s = true -> count_char c s = 0%nat.
Proof.
  intros Hc. induction s as [| x s IH]; [done |]. simpl.
  intros [Hx Hs]%andb_prop. rewrite (IH Hs).
  destruct (Ascii.eqb_spec x c) as [-> | _]; [congruence | done].
Qed.

Lemma urlencode_char_safe (c : ascii) :
  string_forall form_safe (urlencode_char c) = true.
Proof. destruct c as [[] [] [] [] [] [] [] []]; reflexivity. Qed.

Lemma urlencode_safe (s : string) :
  string_forall form_safe (urlencode s) = true.
Proof.
  induction s as [| c s IH]; [done |]. simpl.
  by rewrite string_forall_app, urlencode_char_safe, IH.
Qed.

Lemma form_safe_weaken (s : string) :
  string_forall form_safe s = true ->
  string_forall (fun c => form_safe c || Ascii.eqb c "&" || Ascii.eqb c "=") s
  = true.
Proof.
  induction s as [| c s IH]; [done |]. simpl.
  intros [Hc Hs]%andb_prop. by rewrite Hc, IH.
Qed.

Lemma pair_text_counts (kv : string * QueryValue) :
  count_char "&" (pair_text kv) = 0%nat
  /\ count_char "=" (pair_text kv) = 1%nat
  /\ string_forall
       (fun c => form_safe c || Ascii.eqb c "&" || Ascii.eqb c "=")
       (pair_text kv) = true.
Proof.
  assert (H0 : forall c s, form_safe c = false ->
                           count_char c (urlencode s) = 0%nat).
  { intros c s Hc. apply (count_char_absent form_safe); [done |].
    apply urlencode_safe. }
  unfold pair_text. rewrite !count_char_app, !string_forall_app.
  rewrite !(H0 "&"%char), !(H0 "="%char) by reflexivity.
  rewrite !(form_safe_weaken (urlencode _)) by apply urlencode_safe.
  by repeat split.
Qed.

(** X13. In the query string that [execRequest] appends, every parameter
    contributes exactly one equals sign and the parameters are separated by
    exactly one ampersand each; all other characters are letters, digits or
    one of [* - . _ + %].  So no key or value can add a parameter or end
    the query, whatever characters it holds. *)
Theorem query_string_cannot_be_injected (entries : list (string * QueryValue)) :
  let query := URLSearchParams_toString entries in
  count_char "&" query = (length entries - 1)%nat
  /\ count_char "=" query = length entries
  /\ string_forall
       (fun c => form_safe c || Ascii.eqb c "&" || Ascii.eqb c "=") query
     = true.
Proof.
  unfold URLSearchParams_toString. fold pair_text.
  change (fun kv : string * QueryValue =>
            urlencode kv.1 +:+ "=" +:+ urlencode (String_of kv.2))
    with pair_text.
  induction entries as [| kv rest IH]; [done |].
  destruct (pair_text_counts kv) as (Ha & He & Hs).
  destruct rest as [| kv' rest].
  - simpl. rewrite Ha, He, Hs. done.
  - destruct IH as (IHa & IHe & IHs).
    change (String.concat "&" (map pair_text (kv :: kv' :: rest)))
      with (pair_text kv +:+ "&"
            +:+ String.concat "&" (map pair_text (kv' :: rest))).
    rewrite !count_char_app, !string_forall_app, Ha, He, Hs, IHa, IHe, IHs.
    simpl. repeat split; lia.
Qed.

End QueryStringExtra.

(** ** The two deck services *)

Module DeckServiceExtra.
Import DeckOps.

(** X14. The deck service that calls [fetch] itself reports every failed
    status alike: two responses outside 200 to 299 give the same Error,
    whatever their status and body, so the server's message is lost.  A
    rejection of [fetch] is passed on as it is, Error or not; and [delete]
    resolves to [undefined] on success without reading the body. *)
Theorem fetch_service_failures_are_indistinguishable (env : Env)
  (op : DeckOp) :
  (forall r1 r2, ok r1 = false -> ok r2 = false ->
     snd (via_fetch env (answering (Resolves r1)) op)
     = snd (via_fetch env (answering (Resolves r2)) op)
     /\ exists e, snd (via_fetch env (answering (Resolves r1)) op)
                  = Threw (ThrownError e))
  /\ (forall t, snd (via_fetch env (answering (Rejects t)) op) = Threw t)
  /\ (forall r id, ok r = true ->
        snd (via_fetch env (answering (Resolves r)) (OpDelete id))
        = Returned JUndefined).
Proof.
  split; [| split].
  - intros r1 r2 H1 H2.
    destruct op; simpl; unfold answering, DeckServiceFetch.json_or_fail;
      rewrite ?H1, ?H2; simpl; eauto.
  - intros t. by destruct op.
  - intros r id Hok. simpl. unfold answering. by rewrite Hok.
Qed.

Lemma first_char_differs (a b : string) :
  ("undefined" +:+ a)%string ≠ ("/" +:+ b)%string.
Proof. intros H. discriminate H. Qed.

(** X15. Both deck services address the same URL exactly when the API URL
    of the environment is set.  When it is not, the service built with
    ManageService requests the endpoint itself, relative to the current
    origin, and the one that calls [fetch] requests a URL that starts with
    the text "undefined". *)
Theorem services_agree_on_url_iff_env_set (env : Env) (fetch : Fetch)
  (op : DeckOp) :
  (urls (via_builder env fetch op) = urls (via_fetch env fetch op)
   <-> env ≠ None)
  /\ urls (via_builder None fetch op) = [op_endpoint op]
  /\ urls (via_fetch None fetch op) = ["undefined" +:+ op_endpoint op].
Proof.
  split; [| split].
  - destruct env as [u |].
    + split; [done |]. intros _.
      assert (Hu : DeckService.API_URL (Some u) = u).
      { simpl. unfold or_string. by destruct (String.eqb_spec u ""). }
      destruct op; unfold urls, via_builder, via_fetch, DeckService.getAll,
        DeckService.getById, DeckService.create, DeckService.update,
        DeckService.delete; rewrite Hu; reflexivity.
    + split; [| done]. intros H. exfalso.
      destruct op; unfold urls in H; simpl in H; inversion H as [Hurl];
        symmetry in Hurl; by apply first_char_differs in Hurl.
  - by destruct op.
  - by destruct op.
Qed.

(** X16. Requests for different decks go to different URLs: the detail
    endpoint determines the identifier, and the URL that [getById] of the
    service built with ManageService requests determines it as well. *)
Theorem detail_url_determines_id (env : Env) (fetch : Fetch)
  (id1 id2 : string) :
  (DECK_ENDPOINTS_DETAIL id1 = DECK_ENDPOINTS_DETAIL id2 -> id1 = id2)
  /\ (urls (DeckService.getById env fetch id1)
      = urls (DeckService.getById env fetch id2) -> id1 = id2)
  /\ DECK_ENDPOINTS_DETAIL id1 ≠ DECK_ENDPOINTS_BASE.
Proof.
  split; [| split].
  - unfold DECK_ENDPOINTS_DETAIL. by intros H%String.app_inj.
  - unfold urls. simpl. unfold request_url. simpl. intros H.
    inversion H as [Hurl]. apply String.app_inj in Hurl.
    unfold DECK_ENDPOINTS_DETAIL in Hurl. by apply String.app_inj in Hurl.
  - unfold DECK_ENDPOINTS_DETAIL, DECK_ENDPOINTS_BASE. intros H.
    discriminate H.
Qed.

End DeckServiceExtra.

(** ** Query hook: keys and options *)

Module UseServiceQueryExtra.
Import UseServiceQuery QueryKeys.

Lemma defined_spec (v : JsVal) : defined v = true <-> v ≠ JUndefined.
Proof. destruct v; simpl; split; (done || discriminate). Qed.

(** The two shapes of the options a call can end up with. *)
Lemma query_options_shape (key : list JsVal) (p o : JsVal)
  (q : UseQueryOptions) :
  query_options key p o = Returned q ->
  (q.(queryKey) = key /\ q.(queryFn_argument) = None)
  \/ (q.(queryKey) = key ++ [p] /\ q.(queryFn_argument) = Some p
      /\ p ≠ JUndefined).
Proof.
  unfold query_options. destruct (hasParams p o) as [[|] |]; simpl;
    intros H; inversion H; subst; clear H; simpl.
  - destruct (defined p) eqn:Hd; [right | left]; repeat split.
    by apply defined_spec.
  - by left.
Qed.

Lemma key_is_prefix (key : list JsVal) (p o : JsVal) (q : UseQueryOptions) :
  query_options key p o = Returned q -> key `prefix_of` q.(queryKey).
Proof.
  intros [[-> _] | [-> _]]%query_options_shape.
  - done.
  - by apply prefix_app_r.
Qed.

(** X17. The key handed to the query library always starts with the
    supplied key, and what follows is exactly what the service is called
    with: nothing when the service is called without an argument, the
    parameters, once, when it is called with them.  So two calls whose
    services receive different parameters never share a cache entry. *)
Theorem cache_key_tracks_service_argument (key : list JsVal) (p o : JsVal)
  (q : UseQueryOptions) :
  query_options key p o = Returned q ->
  key `prefix_of` q.(queryKey)
  /\ q.(queryKey)
     = key ++ match q.(queryFn_argument) with
              | Some a => [a]
              | None => []
              end
  /\ (forall p' o' q',
        query_options key p' o' = Returned q' ->
        q.(queryKey) = q'.(queryKey) ->
        q.(queryFn_argument) = q'.(queryFn_argument)).
Proof.
  intros H. split; [by eapply key_is_prefix |].
  assert (Hk : forall p o q,
             query_options key p o = Returned q ->
             q.(queryKey) = key ++ match q.(queryFn_argument) with
                                   | Some a => [a]
                                   | None => []
                                   end).
  { clear. intros p o q [[-> ->] | (-> & -> & _)]%query_options_shape;
      [by rewrite app_nil_r | done]. }
  split; [by apply (Hk p o) |].
  intros p' o' q' H' Heq.
  rewrite (Hk _ _ _ H), (Hk _ _ _ H') in Heq. apply app_inv_head in Heq.
  destruct q.(queryFn_argument), q'.(queryFn_argument); by inversion Heq.
Qed.

Lemma cache_key_tracks_service_argument_witness :
  [JStr "decks"]
    `prefix_of` [JStr "decks"; JObj [("id"%string, JStr "d1")]].
Proof.
  exact (proj1 (cache_key_tracks_service_argument [JStr "decks"]
                  (JObj [("id"%string, JStr "d1")]) JUndefined
                  (default_options
                     [JStr "decks"; JObj [("id"%string, JStr "d1")]]
                     (Some (JObj [("id"%string, JStr "d1")])))
                  eq_refl)).
Defined.

Lemma hasParams_with_options (p o : JsVal) :
  o ≠ JUndefined -> hasParams p o = Returned true.
Proof. intros Ho%defined_spec. unfold hasParams. by rewrite Ho. Qed.

(** X18. When an options argument is supplied after the parameters, every
    setting handed to the query library is the one of the options unless
    that is [undefined] or [null], in which case it is the default:
    enabled, 3 retries, 300000 ms stale time, 600000 ms cache time,
    refetch on focus, no polling.  In particular a setting given as
    [false] or [0] is kept. *)
Theorem given_settings_override_defaults (key : list JsVal) (p o : JsVal) :
  o ≠ JUndefined ->
  exists q,
    query_options key p o = Returned q
    /\ Forall (fun k =>
                 setting k q
                 = match get k o with
                   | JUndefined | JNull => setting k (default_options [] None)
                   | v => v
                   end) setting_names
    /\ Forall (fun k =>
                 get k o = JBool false \/ get k o = JNum 0 ->
                 setting k q = get k o) setting_names.
Proof.
  intros Ho. unfold query_options.
  rewrite (hasParams_with_options p o Ho). simpl. eexists.
  split; [reflexivity |]. split.
  - repeat constructor; simpl;
      match goal with |- context [get ?k o] => by destruct (get k o) end.
  - repeat constructor; simpl; intros [H | H]; by rewrite H.
Qed.

Lemma given_settings_override_defaults_witness :
  exists q,
    query_options [JStr "decks"] JUndefined
      (JObj [("enabled", JBool false); ("retry", JNum 0)]%string)
    = Returned q
    /\ q.(enabled) = JBool false /\ q.(retry) = JNum 0
    /\ q.(staleTime) = JNum 300000.
Proof.
  destruct (given_settings_override_defaults [JStr "decks"] JUndefined
              (JObj [("enabled", JBool false); ("retry", JNum 0)]%string))
    as (q & Hq & _); [discriminate |].
  exists q. split; [exact Hq |]. inversion Hq. by repeat split.
Defined.

(** X19. An options object that has none of the keys [enabled], [retry]
    and [staleTime], passed in third position without a fourth argument,
    is not recognised as options: it is appended to the key and passed to
    the service, and its settings are ignored, the defaults being used. *)
Theorem unrecognised_options_become_params (key : list JsVal)
  (props : list (string * JsVal)) :
  assoc "enabled" props = None ->
  assoc "retry" props = None ->
  assoc "staleTime" props = None ->
  query_options key (JObj props) JUndefined
  = Returned (default_options (key ++ [JObj props]) (Some (JObj props))).
Proof.
  intros He Hr Hs. unfold query_options, hasParams. simpl.
  rewrite He, Hr, Hs. reflexivity.
Qed.

Lemma unrecognised_options_become_params_witness :
  query_options [JStr "decks"]
    (JObj [("gcTime", JNum 0); ("refetchInterval", JNum 1000)]%string)
    JUndefined
  = Returned
      (default_options
         [JStr "decks";
          JObj [("gcTime", JNum 0); ("refetchInterval", JNum 1000)]%string]
         (Some (JObj [("gcTime", JNum 0);
                      ("refetchInterval", JNum 1000)]%string))).
Proof.
  exact (unrecognised_options_become_params [JStr "decks"]
           [("gcTime", JNum 0); ("refetchInterval", JNum 1000)]%string
           eq_refl eq_refl eq_refl).
Defined.

(** X20. The hook throws exactly when no options argument is supplied and
    the third argument is a truthy value that is no object (a non-empty
    string, a number other than zero, [true]); what it throws is then a
    TypeError.  With an object, an array, a falsy value, or with options
    supplied, it never throws. *)
Theorem throws_iff_truthy_primitive_without_options (key : list JsVal)
  (p o : JsVal) :
  ((exists t, query_options key p o = Threw t)
   <-> o = JUndefined /\ truthy p = true /\ primitive p = true)
  /\ (forall t, query_options key p o = Threw t ->
                exists m, t = ThrownError (new_TypeError m)).
Proof.
  assert (Hthrow : o = JUndefined -> truthy p = true -> primitive p = true ->
                   exists m, query_options key p o
                             = Threw (ThrownError (new_TypeError m))).
  { intros -> Ht Hp. destruct p; try discriminate; simpl in *;
      unfold query_options, hasParams, or_empty_object; simpl; rewrite Ht;
      eexists; reflexivity. }
  assert (Hret : ~ (o = JUndefined /\ truthy p = true /\ primitive p = true) ->
                 exists q, query_options key p o = Returned q).
  { intros Hn. unfold query_options.
    destruct (defined o) eqn:Ho.
    { unfold hasParams. rewrite Ho. simpl. eauto. }
    assert (o = JUndefined) as -> by (by destruct o).
    destruct (truthy p) eqn:Ht.
    - destruct p as [| | b | n | s | items | props]; try discriminate;
        try (exfalso; apply Hn; by repeat split).
      + rewrite (UseServiceQueryProps.hasParams_taken (JArr items) JUndefined);
          [simpl; eauto | discriminate |].
        right. right. left. eauto.
      + unfold hasParams, or_empty_object. simpl.
        destruct (assoc "enabled" props); simpl; [eauto |].
        destruct (assoc "retry" props); simpl; [eauto |].
        destruct (assoc "staleTime" props); simpl; eauto.
    - destruct (defined p) eqn:Hd.
      + rewrite (UseServiceQueryProps.hasParams_taken p JUndefined);
          [simpl; eauto | by apply defined_spec | by right; left].
      + unfold hasParams. rewrite Hd. simpl. eauto. }
  destruct (truthy p && primitive p && negb (defined o)) eqn:Hc.
  - apply andb_prop in Hc as [[Ht Hp]%andb_prop Ho].
    assert (o = JUndefined) as -> by (by destruct o).
    destruct (Hthrow eq_refl Ht Hp) as [m Hm]. split.
    + split; [done | eauto].
    + intros t Ht'. rewrite Hm in Ht'. inversion Ht'. eauto.
  - assert (Hn : ~ (o = JUndefined /\ truthy p = true /\ primitive p = true)).
    { intros (-> & Ht & Hp). by rewrite Ht, Hp in Hc. }
    destruct (Hret Hn) as [q Hq]. split.
    + split; [intros [t Ht]; congruence | done].
    + intros t Ht. congruence.
Qed.

(** X21. For a call that supplies options, the first version of the hook
    and the present one hand the query library the same key and call the
    service alike when the parameters are not [undefined]; for
    [undefined] parameters the first version appends [undefined] to the
    key where the present one leaves the key as supplied, as the variant
    without parameters did.  Each setting of the present version is the
    one of the first version, or the default where that is [undefined]
    or [null]. *)
Theorem versions_of_the_hook_compared (key : list JsVal) (p o : JsVal) :
  o ≠ JUndefined ->
  exists q,
    query_options key p o = Returned q
    /\ (p ≠ JUndefined ->
        q.(queryKey) = (UseServiceQueryV1.query_options key p o).(queryKey)
        /\ q.(queryFn_argument)
           = (UseServiceQueryV1.query_options key p o).(queryFn_argument))
    /\ (p = JUndefined ->
        (UseServiceQueryV1.query_options key p o).(queryKey)
        = q.(queryKey) ++ [JUndefined]
        /\ q.(queryKey)
           = (UseServiceQueryV1.query_options_without_params key o).(queryKey)
        /\ q.(queryFn_argument) = None)
    /\ Forall (fun k =>
                 setting k q
                 = nullish (setting k (UseServiceQueryV1.query_options key p o))
                     (setting k (default_options [] None))) setting_names.
Proof.
  intros Ho. unfold query_options.
  rewrite (hasParams_with_options p o Ho). simpl. eexists.
  split; [reflexivity |]. simpl. split; [| split].
  - intros Hp%defined_spec. by rewrite Hp.
  - intros ->. by repeat split.
  - repeat constructor.
Qed.

Lemma versions_of_the_hook_compared_witness :
  exists q,
    query_options [JStr "decks"] JUndefined
      (JObj [("staleTime"%string, JNum 30000)])
    = Returned q
    /\ q.(queryKey) = [JStr "decks"]
    /\ (UseServiceQueryV1.query_options [JStr "decks"] JUndefined
          (JObj [("staleTime"%string, JNum 30000)])).(queryKey)
       = [JStr "decks"; JUndefined].
Proof.
  destruct (versions_of_the_hook_compared [JStr "decks"] JUndefined
              (JObj [("staleTime"%string, JNum 30000)]))
    as (q & Hq & _); [discriminate |].
  exists q. split; [exact Hq |]. inversion Hq. by split.
Defined.

(** X22. The key of all decks is a strict prefix of the key of every
    single deck, different decks have different keys, and every key the
    hook hands to the query library for a query made with either of them
    still starts with the key of all decks. *)
Theorem deck_keys_nest_under_all (id1 id2 : string) (p o : JsVal)
  (q : UseQueryOptions) :
  DECKS_QUERY_KEYS_all `prefix_of` DECKS_QUERY_KEYS_detail id1
  /\ DECKS_QUERY_KEYS_all ≠ DECKS_QUERY_KEYS_detail id1
  /\ (DECKS_QUERY_KEYS_detail id1 = DECKS_QUERY_KEYS_detail id2 -> id1 = id2)
  /\ (query_options DECKS_QUERY_KEYS_all p o = Returned q
      \/ query_options (DECKS_QUERY_KEYS_detail id1) p o = Returned q ->
      DECKS_QUERY_KEYS_all `prefix_of` q.(queryKey)).
Proof.
  assert (Hp : DECKS_QUERY_KEYS_all `prefix_of` DECKS_QUERY_KEYS_detail id1)
    by (by exists [JStr id1]).
  split; [exact Hp |]. split; [discriminate |].
  split; [intros H; by inversion H |].
  intros [H | H]; apply key_is_prefix in H; [done |].
  by etrans.
Qed.

End UseServiceQueryExtra.

(** ** Runs of the notification provider *)

Module NotificationsExtra.
Import Notifications NotificationRuns NotificationsProps.

Lemma advance_timers_iff (dt : Z) (st : State) (t : Timer) :
  t ∈ (advance dt st).(timers)
  <-> t ∈ st.(timers)
      /\ (forall tm, tm ∈ st.(timers) -> tm.(fires_at) <= st.(now) + dt ->
                     tm.(timer_id) ≠ t.(timer_id)).
Proof.
  unfold advance. simpl. rewrite fired_timers.
  split; intros [Hin Hall]; (split; [done |]).
  - intros tm Htm Hdue. apply Hall. by apply elem_of_due.
  - intros tm [Htm Hdue]%elem_of_due. by apply Hall.
Qed.

Lemma step_timers_owned (st : State) (ev : Event) :
  timers_owned st -> timers_owned (step st ev).
Proof.
  intros Ho tm. destruct ev as [message ty dur random | i | dt]; cbn [step].
  - rewrite showNotification_state. simpl.
    intros [Hin | Hin]%elem_of_app.
    + destruct (Ho tm Hin) as (n & Hn & Hid). exists n.
      split; [apply elem_of_app; by left | done].
    + destruct (0 <? default 3000 dur); [| by apply elem_of_nil in Hin].
      apply list_elem_of_singleton in Hin. subst tm. eexists.
      split; [apply elem_of_app; right; by apply list_elem_of_singleton |].
      reflexivity.
  - simpl. intros [Hin Hne]%elem_of_unmount.
    destruct (Ho tm Hin) as (n & Hn & Hid). exists n.
    split; [| done]. apply elem_of_without. split; [done | congruence].
  - intros [Hin Hall]%advance_timers_iff.
    destruct (Ho tm Hin) as (n & Hn & Hid). exists n.
    split; [| done]. apply advance_notifications. split; [done |].
    intros tm' Htm' Hdue. rewrite Hid. by apply Hall.
Qed.

Lemma step_timed_have_timers (st : State) (ev : Event) :
  timed_have_timers st -> timed_have_timers (step st ev).
Proof.
  intros Ht n. destruct ev as [message ty dur random | i | dt]; cbn [step].
  - rewrite showNotification_state. simpl.
    intros [Hin | Hin]%elem_of_app Hpos.
    + destruct (Ht n Hin Hpos) as (tm & Htm & Hid). exists tm.
      split; [apply elem_of_app; by left | done].
    + apply list_elem_of_singleton in Hin. subst n.
      unfold lifetime in Hpos. simpl in Hpos.
      rewrite (proj2 (Z.ltb_lt _ _) Hpos). eexists.
      split; [apply elem_of_app; right; by apply list_elem_of_singleton |].
      reflexivity.
  - simpl. intros [Hin Hne]%elem_of_without Hpos.
    destruct (Ht n Hin Hpos) as (tm & Htm & Hid). exists tm.
    split; [| done]. apply elem_of_unmount. split; [done | congruence].
  - intros [Hin Hall]%advance_notifications Hpos.
    destruct (Ht n Hin Hpos) as (tm & Htm & Hid). exists tm.
    split; [| done]. apply advance_timers_iff. split; [done |].
    intros tm' Htm' Hdue. rewrite Hid. by apply Hall.
Qed.

Lemma step_timers_ahead (st : State) (ev : Event) :
  timers_ahead st -> timers_ahead (step st ev).
Proof.
  intros Ha tm. destruct ev as [message ty dur random | i | dt]; cbn [step].
  - rewrite showNotification_state. simpl.
    intros [Hin | Hin]%elem_of_app; [by apply Ha |].
    destruct (0 <? default 3000 dur) eqn:Hd; [| by apply elem_of_nil in Hin].
    apply list_elem_of_singleton in Hin. subst tm. simpl.
    apply Z.ltb_lt in Hd. lia.
  - simpl. intros [Hin _]%elem_of_unmount. by apply Ha.
  - intros [Hin Hall]%advance_timers_iff.
    destruct (Z_lt_le_dec (st.(now) + dt) tm.(fires_at)) as [Hlt | Hle];
      [done |].
    exfalso. by apply (Hall tm Hin Hle).
Qed.

Lemma run_healthy (evs : list Event) (st : State) :
  timers_owned st /\ timed_have_timers st /\ timers_ahead st ->
  timers_owned (run st evs) /\ timed_have_timers (run st evs)
  /\ timers_ahead (run st evs).
Proof.
  revert st. induction evs as [| ev evs IH]; intros st H; [done |].
  simpl. apply IH. destruct H as (Ho & Ht & Ha).
  split; [by apply step_timers_owned |].
  split; [by apply step_timed_have_timers | by apply step_timers_ahead].
Qed.

Lemma initial_healthy :
  timers_owned initial /\ timed_have_timers initial /\ timers_ahead initial.
Proof.
  repeat split; intros x H; by apply elem_of_nil in H.
Qed.

(** X23. In every state the provider reaches, a pending timer belongs to
    a notification that is still shown (closing or expiry leaves no timer
    behind), every shown notification with a positive duration has a
    pending timer, and every pending timer fires later than the clock
    reads: no notification with a positive duration is shown at or past
    its deadline. *)
Theorem timers_and_notifications_in_step (evs : list Event) :
  let st := run initial evs in
  timers_owned st
  /\ timed_have_timers st
  /\ timers_ahead st
  /\ (forall n, n ∈ st.(notifications) -> 0 < lifetime n ->
        exists tm, tm ∈ st.(timers) /\ tm.(timer_id) = n.(id)
                   /\ st.(now) < tm.(fires_at)).
Proof.
  intros st.
  destruct (run_healthy evs initial initial_healthy) as (Ho & Ht & Ha).
  repeat split; try done.
  intros n Hn Hpos. destruct (Ht n Hn Hpos) as (tm & Htm & Hid).
  exists tm. repeat split; try done. by apply Ha.
Qed.

Lemma fired_sublist (tms : list Timer) (st : State) :
  (fold_left (fun s tm => fire tm s) tms st).(notifications)
    `sublist_of` st.(notifications).
Proof.
  revert st. induction tms as [| tm tms IH]; intros st; [done |].
  simpl. etrans; [apply IH |]. apply sublist_filter.
Qed.

Lemma step_sublist (st : State) (ev : Event) :
  (step st ev).(notifications)
    `sublist_of` st.(notifications) ++ inserted st [ev].
Proof.
  destruct ev as [message ty dur random | i | dt]; simpl.
  - done.
  - rewrite app_nil_r. apply sublist_filter.
  - rewrite app_nil_r. apply fired_sublist.
Qed.

Lemma inserted_cons (st : State) (ev : Event) (evs : list Event) :
  inserted st (ev :: evs) = inserted st [ev] ++ inserted (step st ev) evs.
Proof. simpl. by rewrite app_nil_r. Qed.

(** X24. Notifications are shown in the order of their insertion: what
    the provider shows after any run is a subsequence of what was shown
    before followed by the records inserted during the run, in that
    order; and when the run only inserts, it is exactly that list. *)
Theorem shown_in_insertion_order (st : State) (evs : list Event) :
  (run st evs).(notifications)
    `sublist_of` st.(notifications) ++ inserted st evs
  /\ (Forall (fun ev => exists message ty dur random,
                          ev = Show message ty dur random) evs ->
      (run st evs).(notifications) = st.(notifications) ++ inserted st evs).
Proof.
  split.
  - revert st. induction evs as [| ev evs IH]; intros st.
    + simpl. by rewrite app_nil_r.
    + change (run st (ev :: evs)) with (run (step st ev) evs).
      etrans; [apply IH |].
      rewrite inserted_cons, app_assoc. apply sublist_app; [| done].
      apply step_sublist.
  - revert st. induction evs as [| ev evs IH]; intros st Hall.
    + simpl. by rewrite app_nil_r.
    + apply Forall_cons in Hall as [(message & ty & dur & random & ->) Hall].
      change (run st (Show message ty dur random :: evs))
        with (run (step st (Show message ty dur random)) evs).
      rewrite (IH _ Hall). simpl. by rewrite <- app_assoc.
Qed.

Lemma removeNotification_twice (i : string) (st : State) :
  removeNotification i (removeNotification i st) = removeNotification i st.
Proof.
  unfold removeNotification, without, unmount. simpl. f_equal.
  - by apply list_filter_filter_l.
  - by apply list_filter_filter_l.
Qed.

Lemma removeNotification_comm (i j : string) (st : State) :
  removeNotification i (removeNotification j st)
  = removeNotification j (removeNotification i st).
Proof.
  unfold removeNotification, without, unmount. simpl. f_equal.
  - rewrite !list_filter_filter. apply list_filter_iff. tauto.
  - rewrite !list_filter_filter. apply list_filter_iff. tauto.
Qed.

(** X25. Closing is idempotent and the order of two closings does not
    matter; and in every state the provider reaches, closing an
    identifier that no shown notification carries changes nothing. *)
Theorem closing_is_idempotent_and_safe (evs : list Event) (i j : string)
  (st : State) :
  removeNotification i (removeNotification i st) = removeNotification i st
  /\ removeNotification i (removeNotification j st)
     = removeNotification j (removeNotification i st)
  /\ ((forall n, n ∈ (run initial evs).(notifications) -> n.(id) ≠ i) ->
      removeNotification i (run initial evs) = run initial evs).
Proof.
  split; [apply removeNotification_twice |].
  split; [apply removeNotification_comm |].
  intros Hfresh.
  destruct (run_healthy evs initial initial_healthy) as (Ho & _ & _).
  unfold removeNotification.
  rewrite without_fresh by done. rewrite unmount_fresh.
  - by destruct (run initial evs).
  - intros tm Htm. destruct (Ho tm Htm) as (n & Hn & Hid).
    rewrite <- Hid. by apply Hfresh.
Qed.

End NotificationsExtra.

(** ** The create-deck form, end to end *)

Module CreateDeckFormExtra.
Import FormBuilder CreateDeckForm.

(** X26. A submit event on the create-deck form issues no network call
    when the name is absent or empty: the submission stops with "Deck
    Name is required".  With a non-empty name it issues exactly one POST
    to the decks endpoint whose body is the JSON of the name and of the
    description, the description being left out when it is absent or
    empty. *)
Theorem create_deck_form_end_to_end (env : Env) (fetch : Fetch)
  (formData : FormData) :
  let name_entry := FormData_get formData "name" in
  let description_entry := FormData_get formData "description" in
  let description :=
    if entry_truthy description_entry && is_string description_entry
    then Some (string_of description_entry) else None in
  (entry_truthy name_entry && is_string name_entry = false ->
   submit env fetch formData
   = ([], Threw (ThrownError (new_Error "Deck Name is required"))))
  /\ (forall n, name_entry = Some (EntryString n) -> n ≠ ""%string ->
        submit env fetch formData
        = DeckService.create env fetch (mkCreate n description)
        /\ fst (submit env fetch formData)
           = [builder_call (DeckService.API_URL env) "/v1/decks" POST
                (JSON_stringify
                   (CreateDeckDto_object (mkCreate n description)))]).
Proof.
  intros name_entry description_entry description.
  unfold submit, handleSubmit, createDeckFormFields.
  rewrite !FormBuilderExtra.collect_step.
  unfold FormBuilderValues.rejects, FormBuilderValues.field_value. simpl.
  fold name_entry description_entry. split.
  - intros Hn. rewrite Hn. reflexivity.
  - intros n Hname Hne.
    assert (Ht : entry_truthy name_entry && is_string name_entry = true).
    { rewrite Hname. simpl. by destruct (String.eqb_spec n ""). }
    rewrite Ht, andb_false_r. cbn [negb andb].
    rewrite !FormBuilderExtra.assign_insert by done.
    assert (Hdto : dto_of
                     (<["description"%string :=
                          if entry_truthy description_entry
                             && is_string description_entry
                          then VString (string_of description_entry)
                          else VUndefined]>
                        (<["name"%string := VString (string_of name_entry)]> ∅))
                   = mkCreate n description).
    { unfold dto_of. rewrite lookup_insert_ne by done.
      rewrite !lookup_insert_eq. rewrite Hname. simpl. unfold description.
      by destruct (entry_truthy description_entry
                   && is_string description_entry). }
    rewrite Hdto. split; reflexivity.
Qed.

Example create_deck_request :
  fst (submit (Some "http://api"%string) fetch_deck_d1
         [("name", EntryString "Nouns"); ("description", EntryString "")]%string)
  = [mkCall "http://api/v1/decks"
       (mkInit (Some "POST"%string)
          (Some {[ "Content-Type"%string := "application/json"%string ]})
          (JSON_stringify (JObj [("name"%string, JStr "Nouns")])) None)].
Proof. reflexivity. Qed.

(** X27. When a deck has been created the form invalidates the key of all
    decks and shows one more notification, of type success, whose text
    contains the name of the deck and whose duration is the default 3000
    ms; when the creation failed it shows one error notification whose
    text is fixed, whatever the error was.  Either is shown for less than
    3000 ms and gone from 3000 ms on, its identifier being fresh. *)
Theorem create_deck_feedback (deck_name random : string) (err err' : JsError)
  (st : Notifications.State) :
  let i := Notifications.fresh_id st.(Notifications.now) random in
  let ok_note :=
    Notifications.mkNotification i Notifications.success
      (success_message deck_name) (Some 3000) in
  let st_ok := snd (handleCreateSuccess deck_name random st) in
  let st_err := handleCreateError err random st in
  fst (handleCreateSuccess deck_name random st) = [JStr "decks"]
  /\ st_ok.(Notifications.notifications)
     = st.(Notifications.notifications) ++ [ok_note]
  /\ includes (success_message deck_name) deck_name
  /\ st_err.(Notifications.notifications)
     = st.(Notifications.notifications)
       ++ [Notifications.mkNotification i Notifications.error
             "Failed to create deck. Please try again." (Some 3000)]
  /\ handleCreateError err' random st = st_err
  /\ (Notifications.fresh i st ->
      (forall dt, 0 <= dt < 3000 ->
         ok_note ∈ (Notifications.advance dt st_ok).(Notifications.notifications))
      /\ (forall dt n, 3000 <= dt ->
            n ∈ (Notifications.advance dt st_ok).(Notifications.notifications)
            \/ n ∈ (Notifications.advance dt st_err).(Notifications.notifications) ->
            n.(Notifications.id) ≠ i)).
Proof.
  intros i ok_note st_ok st_err.
  do 2 (split; [reflexivity |]).
  split.
  { unfold success_message. exists ("Deck " +:+ String dquote ""), (String dquote " created successfully!").
    by rewrite <- !append_assoc. }
  do 2 (split; [reflexivity |]).
  intros Hfresh.
  destruct (NotificationsProps.auto_dismiss (success_message deck_name)
              (Some Notifications.success) None random st)
    as (H1 & H2 & _); [done | exact Hfresh |].
  destruct (NotificationsProps.auto_dismiss
              "Failed to create deck. Please try again."
              (Some Notifications.error) None random st)
    as (_ & H2' & _); [done | exact Hfresh |].
  split; [exact H1 |].
  intros dt n Hdt [Hn | Hn]; [by apply (H2 dt) | by apply (H2' dt)].
Qed.

End CreateDeckFormExtra.
